(** * SceneManager: texture registry, material registry and transform composer

    A shallow embedding of [Source/SceneManager.cpp] and the properties of
    its registry bookkeeping, its uniform helpers and its model-matrix
    composition.

    Conventions of the embedding:
    - [float] values are idealised as real numbers: rounding is not modelled.
    - An [int] is a [Z]; the only conversion that can change a value here
      (GLuint to int in [FindTextureID]) is written out.
    - A computation that runs into undefined behaviour of the C++ program
      (an array access outside [m_textureIDs], a call through a null
      [m_pShaderManager]) or that exhausts the fuel of a loop yields [None].
    - Output to [std::cout] is not modelled, nor are the mesh provider
      ([m_basicMeshes]) and the functions that only drive it or set the two
      fixed lights ([PrepareScene], [SetupSceneLights]). *)

From Stdlib Require Import ZArith Reals Lra Lia String.
From stdpp Require Import base option list strings gmap.

Abbreviation float := R.

(** ** The part of GLM the scene manager calls

    GLM is a third-party library; the definitions follow its column-major
    conventions: a [mat4] is four column vectors and [m * v] treats [v] as a
    column. *)
Module glm.
Local Open Scope R_scope.

Record vec2 := mkVec2 { u2 : float; v2 : float }.
Record vec3 := mkVec3 { x3 : float; y3 : float; z3 : float }.
Record vec4 := mkVec4 { x4 : float; y4 : float; z4 : float; w4 : float }.
Record mat4 := mkMat4 { col0 : vec4; col1 : vec4; col2 : vec4; col3 : vec4 }.

Definition vadd (a b : vec4) : vec4 :=
  mkVec4 (x4 a + x4 b) (y4 a + y4 b) (z4 a + z4 b) (w4 a + w4 b).

Definition vscale (a : vec4) (k : float) : vec4 :=
  mkVec4 (x4 a * k) (y4 a * k) (z4 a * k) (w4 a * k).

(** [mat4 * vec4]. *)
Definition mulv (m : mat4) (v : vec4) : vec4 :=
  vadd (vadd (vadd (vscale (col0 m) (x4 v)) (vscale (col1 m) (y4 v)))
             (vscale (col2 m) (z4 v)))
       (vscale (col3 m) (w4 v)).

(** [mat4 * mat4]: column [j] of the product is [a] applied to column [j]
    of [b]. *)
Definition mul (a b : mat4) : mat4 :=
  mkMat4 (mulv a (col0 b)) (mulv a (col1 b)) (mulv a (col2 b)) (mulv a (col3 b)).

Definition identity : mat4 :=
  mkMat4 (mkVec4 1 0 0 0) (mkVec4 0 1 0 0) (mkVec4 0 0 1 0) (mkVec4 0 0 0 1).

(** [glm::radians]. *)
Definition radians (degrees : float) : float := degrees * (PI / 180).

Definition dot (a b : vec3) : float := x3 a * x3 b + y3 a * y3 b + z3 a * z3 b.

Definition normalize (v : vec3) : vec3 :=
  let k := / sqrt (dot v v) in mkVec3 (x3 v * k) (y3 v * k) (z3 v * k).

(** [glm::scale(v)] is [scale(mat4(1), v)]. *)
Definition scale (v : vec3) : mat4 :=
  let m := identity in
  mkMat4 (vscale (col0 m) (x3 v)) (vscale (col1 m) (y3 v))
         (vscale (col2 m) (z3 v)) (col3 m).

(** [glm::translate(v)] is [translate(mat4(1), v)]. *)
Definition translate (v : vec3) : mat4 :=
  let m := identity in
  mkMat4 (col0 m) (col1 m) (col2 m)
         (vadd (vadd (vadd (vscale (col0 m) (x3 v)) (vscale (col1 m) (y3 v)))
                     (vscale (col2 m) (z3 v)))
               (col3 m)).

(** [glm::rotate(angle, v)] is [rotate(mat4(1), angle, v)]: the axis is
    normalised and the Rodrigues matrix is multiplied into the identity. *)
Definition rotate (angle : float) (v : vec3) : mat4 :=
  let m := identity in
  let c := cos angle in
  let s := sin angle in
  let axis := normalize v in
  let temp := mkVec3 ((1 - c) * x3 axis) ((1 - c) * y3 axis) ((1 - c) * z3 axis) in
  let r00 := c + x3 temp * x3 axis in
  let r01 := x3 temp * y3 axis + s * z3 axis in
  let r02 := x3 temp * z3 axis - s * y3 axis in
  let r10 := y3 temp * x3 axis - s * z3 axis in
  let r11 := c + y3 temp * y3 axis in
  let r12 := y3 temp * z3 axis + s * x3 axis in
  let r20 := z3 temp * x3 axis + s * y3 axis in
  let r21 := z3 temp * y3 axis - s * x3 axis in
  let r22 := c + z3 temp * z3 axis in
  mkMat4
    (vadd (vadd (vscale (col0 m) r00) (vscale (col1 m) r01)) (vscale (col2 m) r02))
    (vadd (vadd (vscale (col0 m) r10) (vscale (col1 m) r11)) (vscale (col2 m) r12))
    (vadd (vadd (vscale (col0 m) r20) (vscale (col1 m) r21)) (vscale (col2 m) r22))
    (col3 m).

(** A point of space as the homogeneous column the shader multiplies. *)
Definition point (p : vec3) : vec4 := mkVec4 (x3 p) (y3 p) (z3 p) 1.

(** The elementary motions of a point, written coordinate by coordinate.
    They are the yardstick the composed matrix is measured against. *)
Definition scale_point (s p : vec3) : vec3 :=
  mkVec3 (x3 s * x3 p) (y3 s * y3 p) (z3 s * z3 p).

Definition rotate_x_point (a : float) (p : vec3) : vec3 :=
  mkVec3 (x3 p) (y3 p * cos a - z3 p * sin a) (y3 p * sin a + z3 p * cos a).

Definition rotate_y_point (a : float) (p : vec3) : vec3 :=
  mkVec3 (x3 p * cos a + z3 p * sin a) (y3 p) (z3 p * cos a - x3 p * sin a).

Definition rotate_z_point (a : float) (p : vec3) : vec3 :=
  mkVec3 (x3 p * cos a - y3 p * sin a) (x3 p * sin a + y3 p * cos a) (z3 p).

Definition translate_point (t p : vec3) : vec3 :=
  mkVec3 (x3 p + x3 t) (y3 p + y3 t) (z3 p + z3 t).

End glm.

Local Open Scope Z_scope.

(** ** Data model *)

(** [TEXTURE_INFO]: [ID] is a [GLuint] (it is passed by address to
    [glGenTextures]), kept as a [Z] in [0, 2^32). *)
Record TEXTURE_INFO := mkTextureInfo { ID : Z; tag : string }.

Definition with_ID (i : Z) (e : TEXTURE_INFO) : TEXTURE_INFO := mkTextureInfo i (tag e).
Definition with_tag (t : string) (e : TEXTURE_INFO) : TEXTURE_INFO := mkTextureInfo (ID e) t.

(** [OBJECT_MATERIAL]. A local of this type is declared without an
    initialiser, so each numeric field starts out indeterminate: [None]
    stands for a field that was never assigned. The [std::string] tag is
    default-constructed to the empty string. *)
Record OBJECT_MATERIAL := mkMaterial {
  ambientColor : option glm.vec3;
  ambientStrength : option float;
  diffuseColor : option glm.vec3;
  specularColor : option glm.vec3;
  shininess : option float;
  mtag : string }.

Definition default_material : OBJECT_MATERIAL :=
  mkMaterial None None None None None "".

Definition set_ambientColor (v : glm.vec3) (m : OBJECT_MATERIAL) :=
  mkMaterial (Some v) (ambientStrength m) (diffuseColor m) (specularColor m)
             (shininess m) (mtag m).
Definition set_ambientStrength (f : float) (m : OBJECT_MATERIAL) :=
  mkMaterial (ambientColor m) (Some f) (diffuseColor m) (specularColor m)
             (shininess m) (mtag m).
Definition set_diffuseColor (v : glm.vec3) (m : OBJECT_MATERIAL) :=
  mkMaterial (ambientColor m) (ambientStrength m) (Some v) (specularColor m)
             (shininess m) (mtag m).
Definition set_specularColor (v : glm.vec3) (m : OBJECT_MATERIAL) :=
  mkMaterial (ambientColor m) (ambientStrength m) (diffuseColor m) (Some v)
             (shininess m) (mtag m).
Definition set_shininess (f : float) (m : OBJECT_MATERIAL) :=
  mkMaterial (ambientColor m) (ambientStrength m) (diffuseColor m)
             (specularColor m) (Some f) (mtag m).
Definition set_tag (t : string) (m : OBJECT_MATERIAL) :=
  mkMaterial (ambientColor m) (ambientStrength m) (diffuseColor m)
             (specularColor m) (shininess m) t.

(** What [stbi_load] hands back for a file it can decode. *)
Record Image := mkImage { width : Z; height : Z; colorChannels : Z }.

(** The OpenGL calls the scene manager can issue, as a trace.
    [glDeleteTextures] is the release call of the API; it is listed so that
    its absence from a trace can be stated. *)
Inductive GLformat := GL_RGB8 | GL_RGBA8.
Inductive GLparam :=
  GL_TEXTURE_WRAP_S | GL_TEXTURE_WRAP_T | GL_TEXTURE_MIN_FILTER | GL_TEXTURE_MAG_FILTER.
Inductive GLvalue := GL_REPEAT | GL_LINEAR.
Inductive GLCall :=
| glGenTextures (name : Z)
| glDeleteTextures (name : Z)
| glBindTexture (name : Z)
| glTexParameteri (pname : GLparam) (param : GLvalue)
| glTexImage2D (internalformat : GLformat) (w h : Z)
| glGenerateMipmap
| glActiveTexture (unit : Z).

(** Modelled from the spec: the shader parameter sink ([ShaderManager], whose
    source is not part of this file) accepts named uniform values of the
    kinds below and keeps, per name, the value pushed last. A material field
    that was never assigned is pushed as an indeterminate value ([None]). *)
Inductive uniform :=
| UInt (i : Z)
| UBool (b : bool)
| UFloat (f : option float)
| UVec2 (v : glm.vec2)
| UVec3 (v : option glm.vec3)
| UVec4 (v : glm.vec4)
| UMat4 (m : glm.mat4)
| USampler2D (slot : Z).

(** The sink's state is the sequence of pushes, newest first. *)
Definition ShaderManager : Type := list (string * uniform).

Definition uniforms (sm : ShaderManager) : gmap string uniform := list_to_map sm.

(** Modelled from the spec: at a draw the shader samples a texture when the
    shared flag [bUseTexture] is set and uses the flat colour when it is
    clear; the flag is a single integer uniform. *)
Definition samples_texture (sm : ShaderManager) : option bool :=
  match uniforms sm !! "bUseTexture"%string with
  | Some (UInt i) => Some (negb (i =? 0))
  | _ => None
  end.

(** Everything a member function can read or change: the decoder's view of
    the file system, the OpenGL driver (which name [glGenTextures] picks
    after a given history) and its call trace, and the members of
    [SceneManager]. A null [m_pShaderManager] is [None]. *)
Record World := mkWorld {
  stbi_load : string → option Image;
  gl_driver : list GLCall → Z;
  gl_calls : list GLCall;
  m_pShaderManager : option ShaderManager;
  m_loadedTextures : Z;
  m_textureIDs : list TEXTURE_INFO;
  m_objectMaterials : list OBJECT_MATERIAL }.

Definition with_gl_calls (c : list GLCall) (w : World) : World :=
  mkWorld (stbi_load w) (gl_driver w) c (m_pShaderManager w)
          (m_loadedTextures w) (m_textureIDs w) (m_objectMaterials w).
Definition with_shader (p : option ShaderManager) (w : World) : World :=
  mkWorld (stbi_load w) (gl_driver w) (gl_calls w) p
          (m_loadedTextures w) (m_textureIDs w) (m_objectMaterials w).
Definition with_loadedTextures (n : Z) (w : World) : World :=
  mkWorld (stbi_load w) (gl_driver w) (gl_calls w) (m_pShaderManager w)
          n (m_textureIDs w) (m_objectMaterials w).
Definition with_textureIDs (t : list TEXTURE_INFO) (w : World) : World :=
  mkWorld (stbi_load w) (gl_driver w) (gl_calls w) (m_pShaderManager w)
          (m_loadedTextures w) t (m_objectMaterials w).
Definition with_objectMaterials (ms : list OBJECT_MATERIAL) (w : World) : World :=
  mkWorld (stbi_load w) (gl_driver w) (gl_calls w) (m_pShaderManager w)
          (m_loadedTextures w) (m_textureIDs w) ms.

(** ** A state-and-failure monad for the member functions *)

Definition M (A : Type) : Type := World → option (A * World).

#[global] Instance M_ret : MRet M := λ A a w, Some (a, w).
#[global] Instance M_bind : MBind M := λ A B f m w,
  match m w with
  | Some (a, w') => f a w'
  | None => None
  end.

Definition undefined {A} : M A := λ _, None.
Definition gets {A} (f : World → A) : M A := λ w, Some (f w, w).
Definition modify (f : World → World) : M unit := λ w, Some (tt, f w).

(** One OpenGL call without a result. *)
Definition gl (c : GLCall) : M unit :=
  modify (λ w, with_gl_calls (gl_calls w ++ [c]) w).

(** [glGenTextures(1, &name)]: the driver picks a name, a [GLuint]. *)
Definition gen_texture : M Z := λ w,
  let name := gl_driver w (gl_calls w) `mod` 2 ^ 32 in
  Some (name, with_gl_calls (gl_calls w ++ [glGenTextures name]) w).

(** [m_textureIDs[i].field = ...]: outside the array the write is undefined. *)
Definition store_texture (i : Z) (f : TEXTURE_INFO → TEXTURE_INFO) : M unit := λ w,
  if bool_decide (0 ≤ i < Z.of_nat (length (m_textureIDs w)))
  then Some (tt, with_textureIDs (alter f (Z.to_nat i) (m_textureIDs w)) w)
  else None.

(** [m_textureIDs[i]] as a read. *)
Definition texture_at (w : World) (i : Z) : option TEXTURE_INFO :=
  if bool_decide (0 ≤ i) then m_textureIDs w !! Z.to_nat i else None.

(** [m_pShaderManager->set...Value(name, v)]: undefined through a null
    pointer. *)
Definition push (name : string) (v : uniform) : M unit := λ w,
  match m_pShaderManager w with
  | Some sm => Some (tt, with_shader (Some ((name, v) :: sm)) w)
  | None => None
  end.

Definition setIntValue (name : string) (i : Z) : M unit := push name (UInt i).
Definition setBoolValue (name : string) (b : bool) : M unit := push name (UBool b).
Definition setFloatValue (name : string) (f : option float) : M unit := push name (UFloat f).
Definition setVec2Value (name : string) (v : glm.vec2) : M unit := push name (UVec2 v).
Definition setVec3Value (name : string) (v : option glm.vec3) : M unit := push name (UVec3 v).
Definition setVec4Value (name : string) (v : glm.vec4) : M unit := push name (UVec4 v).
Definition setMat4Value (name : string) (m : glm.mat4) : M unit := push name (UMat4 m).
Definition setSampler2DValue (name : string) (slot : Z) : M unit := push name (USampler2D slot).

(** ** The member functions *)

Definition g_ModelName : string := "model".
Definition g_ColorValueName : string := "objectColor".
Definition g_TextureValueName : string := "objectTexture".
Definition g_UseTextureName : string := "bUseTexture".
Definition g_UseLightingName : string := "bUseLighting".

(** Lines 105-117 of [CreateGLTexture]: mipmaps, unbind, then the entry is
    written at index [m_loadedTextures] and the count goes up by one. *)
Definition register_texture (textureID : Z) (tag : string) : M bool :=
  gl glGenerateMipmap;;
  gl (glBindTexture 0);;
  n ← gets m_loadedTextures;
  store_texture n (with_ID textureID);;
  n ← gets m_loadedTextures;
  store_texture n (with_tag tag);;
  modify (λ w, with_loadedTextures (m_loadedTextures w + 1) w);;
  mret true.

Definition CreateGLTexture (filename tag : string) : M bool :=
  image ← gets (λ w, stbi_load w filename);
  match image with
  | Some img =>
      textureID ← gen_texture;
      gl (glBindTexture textureID);;
      gl (glTexParameteri GL_TEXTURE_WRAP_S GL_REPEAT);;
      gl (glTexParameteri GL_TEXTURE_WRAP_T GL_REPEAT);;
      gl (glTexParameteri GL_TEXTURE_MIN_FILTER GL_LINEAR);;
      gl (glTexParameteri GL_TEXTURE_MAG_FILTER GL_LINEAR);;
      if colorChannels img =? 3 then
        gl (glTexImage2D GL_RGB8 (width img) (height img));;
        register_texture textureID tag
      else if colorChannels img =? 4 then
        gl (glTexImage2D GL_RGBA8 (width img) (height img));;
        register_texture textureID tag
      else mret false
  | None => mret false
  end.

(** [for (int i = 0; i < m_loadedTextures; i++) body(i)], entered at [i]. *)
Fixpoint for_loaded (fuel : nat) (body : Z → M unit) (i : Z) : M unit := λ w,
  if i <? m_loadedTextures w then
    match fuel with
    | O => None
    | S fuel' => (body i;; for_loaded fuel' body (i + 1)) w
    end
  else Some (tt, w).

(** Body of the loop of [BindGLTextures]. *)
Definition BindGLTextures_body (i : Z) : M unit :=
  gl (glActiveTexture i);;
  e ← gets (λ w, texture_at w i);
  match e with
  | Some e => gl (glBindTexture (ID e))
  | None => undefined
  end.

Definition BindGLTextures : M unit := λ w,
  for_loaded (Z.to_nat (m_loadedTextures w)) BindGLTextures_body 0 w.

(** [glGenTextures(1, &m_textureIDs[i].ID)]: a new name is generated and
    written over the entry's [ID]. *)
Definition DestroyGLTextures_body (i : Z) : M unit :=
  name ← gen_texture;
  store_texture i (with_ID name).

Definition DestroyGLTextures : M unit := λ w,
  for_loaded (Z.to_nat (m_loadedTextures w)) DestroyGLTextures_body 0 w.

(** [entry.tag.compare(tag) == 0]. *)
Definition tag_matches (e : TEXTURE_INFO) (t : string) : bool := String.eqb (tag e) t.
Definition mtag_matches (m : OBJECT_MATERIAL) (t : string) : bool := String.eqb (mtag m) t.

(** Conversion of a [GLuint] to [int]. *)
Definition int_of_GLuint (u : Z) : Z := if u <? 2 ^ 31 then u else u - 2 ^ 32.

(** The [while] loop of [FindTextureID], entered with the given values of
    its three locals. *)
Fixpoint FindTextureID_loop (fuel : nat) (w : World) (tag : string)
    (textureID index : Z) (bFound : bool) : option Z :=
  if (index <? m_loadedTextures w) && negb bFound then
    match fuel with
    | O => None
    | S fuel' =>
        e ← texture_at w index;
        if tag_matches e tag
        then FindTextureID_loop fuel' w tag (int_of_GLuint (ID e)) index true
        else FindTextureID_loop fuel' w tag textureID (index + 1) bFound
    end
  else Some textureID.

Definition FindTextureID (w : World) (tag : string) : option Z :=
  FindTextureID_loop (Z.to_nat (m_loadedTextures w)) w tag (-1) 0 false.

(** The [while] loop of [FindTextureSlot]. *)
Fixpoint FindTextureSlot_loop (fuel : nat) (w : World) (tag : string)
    (textureSlot index : Z) (bFound : bool) : option Z :=
  if (index <? m_loadedTextures w) && negb bFound then
    match fuel with
    | O => None
    | S fuel' =>
        e ← texture_at w index;
        if tag_matches e tag
        then FindTextureSlot_loop fuel' w tag index index true
        else FindTextureSlot_loop fuel' w tag textureSlot (index + 1) bFound
    end
  else Some textureSlot.

Definition FindTextureSlot (w : World) (tag : string) : option Z :=
  FindTextureSlot_loop (Z.to_nat (m_loadedTextures w)) w tag (-1) 0 false.

(** The five field copies of [FindMaterial]; the tag of [material] is not
    written. *)
Definition copy_attributes (src material : OBJECT_MATERIAL) : OBJECT_MATERIAL :=
  mkMaterial (ambientColor src) (ambientStrength src) (diffuseColor src)
             (specularColor src) (shininess src) (mtag material).

(** The [while] loop of [FindMaterial]; it yields the final values of
    [bFound] and of the out-parameter. *)
Fixpoint FindMaterial_loop (fuel : nat) (ms : list OBJECT_MATERIAL) (tag : string)
    (material : OBJECT_MATERIAL) (index : Z) (bFound : bool)
    : option (bool * OBJECT_MATERIAL) :=
  if (index <? Z.of_nat (length ms)) && negb bFound then
    match fuel with
    | O => None
    | S fuel' =>
        m ← ms !! Z.to_nat index;
        if mtag_matches m tag
        then FindMaterial_loop fuel' ms tag (copy_attributes m material) index true
        else FindMaterial_loop fuel' ms tag material (index + 1) bFound
    end
  else Some (bFound, material).

(** [FindMaterial(tag, material)]: the result and the out-parameter. After
    the loop the function returns [true] whatever [bFound] holds. *)
Definition FindMaterial (w : World) (tag : string) (material : OBJECT_MATERIAL)
    : option (bool * OBJECT_MATERIAL) :=
  let ms := m_objectMaterials w in
  if Z.of_nat (length ms) =? 0 then Some (false, material)
  else
    '(bFound, material') ← FindMaterial_loop (length ms) ms tag material 0 false;
    Some (true, material').

Definition SetTransformations (scaleXYZ : glm.vec3)
    (XrotationDegrees YrotationDegrees ZrotationDegrees : float)
    (positionXYZ : glm.vec3) : M unit :=
  let scale := glm.scale scaleXYZ in
  let rotationX := glm.rotate (glm.radians XrotationDegrees) (glm.mkVec3 1 0 0) in
  let rotationY := glm.rotate (glm.radians YrotationDegrees) (glm.mkVec3 0 1 0) in
  let rotationZ := glm.rotate (glm.radians ZrotationDegrees) (glm.mkVec3 0 0 1) in
  let translation := glm.translate positionXYZ in
  let modelView :=
    glm.mul (glm.mul (glm.mul (glm.mul translation rotationX) rotationY) rotationZ) scale in
  p ← gets m_pShaderManager;
  match p with
  | Some _ => setMat4Value g_ModelName modelView
  | None => mret tt
  end.

Definition SetShaderColor (redColorValue greenColorValue blueColorValue alphaValue : float)
    : M unit :=
  let currentColor := glm.mkVec4 redColorValue greenColorValue blueColorValue alphaValue in
  p ← gets m_pShaderManager;
  match p with
  | Some _ =>
      setIntValue g_UseTextureName 0;;
      setVec4Value g_ColorValueName currentColor
  | None => mret tt
  end.

Definition SetShaderTexture (textureTag : string) : M unit :=
  p ← gets m_pShaderManager;
  match p with
  | Some _ =>
      setIntValue g_UseTextureName 1;;
      slot ← gets (λ w, FindTextureSlot w textureTag);
      match slot with
      | Some textureID => setSampler2DValue g_TextureValueName textureID
      | None => undefined
      end
  | None => mret tt
  end.

Definition SetTextureUVScale (u v : float) : M unit :=
  p ← gets m_pShaderManager;
  match p with
  | Some _ => setVec2Value "UVscale" (glm.mkVec2 u v)
  | None => mret tt
  end.

Definition LoadSceneTextures : M unit :=
  CreateGLTexture "textures/granite_texture.jpg" "island top";;
  CreateGLTexture "textures/plaster_texture.jpg" "island stand";;
  CreateGLTexture "textures/wicker_light_texture.jpg" "stand base";;
  CreateGLTexture "textures/light_wood_texture.jpg" "top torus";;
  CreateGLTexture "textures/bamboo_texture.jpg" "torus";;
  CreateGLTexture "textures/granite_texture.jpg" "island top";;
  CreateGLTexture "textures/wood_shiny_texture.jpg" "bottom torus";;
  CreateGLTexture "textures/wood_floor_texture.jpg" "floor";;
  CreateGLTexture "textures/matte_black_metal.jpg" "candle snuffer";;
  CreateGLTexture "textures/ceramic_texture.jpg" "pottery";;
  CreateGLTexture "textures/leather_texture1.jpg" "fruit";;
  CreateGLTexture "textures/paper_texture2.jpg" "paper";;
  CreateGLTexture "textures/wax_texture.jpg" "wax";;
  CreateGLTexture "textures/dark_wood_texture1.jpg" "dark wood";;
  CreateGLTexture "textures/stainless.jpg" "steel";;
  BindGLTextures.

Definition SetShaderMaterial (materialTag : string) : M unit :=
  n ← gets (λ w, Z.of_nat (length (m_objectMaterials w)));
  if 0 <? n then
    let material := default_material in
    r ← gets (λ w, FindMaterial w materialTag material);
    match r return M unit with
    | Some (bReturn, material) =>
        if bReturn : bool then
          setVec3Value "material.ambientColor" (ambientColor material);;
          setFloatValue "material.ambientStrength" (ambientStrength material);;
          setVec3Value "material.diffuseColor" (diffuseColor material);;
          setVec3Value "material.specularColor" (specularColor material);;
          setFloatValue "material.shininess" (shininess material)
        else mret tt
    | None => undefined
    end
  else mret tt.

Definition push_back (m : OBJECT_MATERIAL) : M unit :=
  modify (λ w, with_objectMaterials (m_objectMaterials w ++ [m]) w).

(** Local records are updated field by field and copied into the vector by
    [push_back]; a later assignment to the local does not reach the copy. *)
Definition DefineObjectMaterials : M unit :=
  let metalMaterial := default_material in
  let metalMaterial := set_ambientColor (glm.mkVec3 0.3 0.3 0.3) metalMaterial in
  let metalMaterial := set_ambientStrength 0.5 metalMaterial in
  let metalMaterial := set_diffuseColor (glm.mkVec3 0.25 0.25 0.25) metalMaterial in
  let metalMaterial := set_specularColor (glm.mkVec3 0.4 0.4 0.4) metalMaterial in
  let metalMaterial := set_shininess 30.0 metalMaterial in
  let metalMaterial := set_tag "metal" metalMaterial in
  push_back metalMaterial;;
  let woodMaterial := default_material in
  let woodMaterial := set_ambientColor (glm.mkVec3 0.20 0.20 0.20) woodMaterial in
  let woodMaterial := set_ambientStrength 0.25 woodMaterial in
  let woodMaterial := set_diffuseColor (glm.mkVec3 0.4 0.4 0.4) woodMaterial in
  let woodMaterial := set_specularColor (glm.mkVec3 0.15 0.15 0.15) woodMaterial in
  let woodMaterial := set_shininess 0.3 woodMaterial in
  let woodMaterial := set_tag "wood" woodMaterial in
  push_back woodMaterial;;
  let glassMaterial := default_material in
  let glassMaterial := set_ambientColor (glm.mkVec3 0.4 0.4 0.4) glassMaterial in
  let glassMaterial := set_ambientStrength 0.3 glassMaterial in
  let glassMaterial := set_diffuseColor (glm.mkVec3 0.3 0.3 0.3) glassMaterial in
  let glassMaterial := set_specularColor (glm.mkVec3 0.6 0.6 0.6) glassMaterial in
  let glassMaterial := set_shininess 85.0 glassMaterial in
  let glassMaterial := set_tag "glass" glassMaterial in
  push_back glassMaterial;;
  let ceramicMaterial := default_material in
  let ceramicMaterial := set_ambientColor (glm.mkVec3 0.6 0.6 0.6) ceramicMaterial in
  let ceramicMaterial := set_ambientStrength 0.25 ceramicMaterial in
  let ceramicMaterial := set_diffuseColor (glm.mkVec3 0.86 0.82 0.78) ceramicMaterial in
  let ceramicMaterial := set_specularColor (glm.mkVec3 0.0 0.0 0.0) ceramicMaterial in
  let glassMaterial := set_shininess 25.0 glassMaterial in
  let ceramicMaterial := set_tag "ceramic" ceramicMaterial in
  push_back ceramicMaterial;;
  let wallingMaterial := default_material in
  let wallingMaterial := set_ambientColor (glm.mkVec3 0.45 0.45 0.45) wallingMaterial in
  let wallingMaterial := set_ambientStrength 0.7 wallingMaterial in
  let wallingMaterial := set_diffuseColor (glm.mkVec3 0.4 0.5 0.35) wallingMaterial in
  let wallingMaterial := set_specularColor (glm.mkVec3 0.1 0.1 0.1) wallingMaterial in
  let wallingMaterial := set_shininess 0.0 wallingMaterial in
  let wallingMaterial := set_tag "walling" wallingMaterial in
  push_back wallingMaterial;;
  let leatherMaterial := default_material in
  let leatherMaterial := set_ambientColor (glm.mkVec3 0.56 0.45 0.113) leatherMaterial in
  let leatherMaterial := set_ambientStrength 0.2 leatherMaterial in
  let leatherMaterial := set_diffuseColor (glm.mkVec3 0.76 0.64 0.2) leatherMaterial in
  let leatherMaterial := set_specularColor (glm.mkVec3 0.76 0.64 0.2) leatherMaterial in
  let leatherMaterial := set_shininess 0.0 leatherMaterial in
  let leatherMaterial := set_tag "leather" leatherMaterial in
  push_back leatherMaterial;;
  let paperMaterial := default_material in
  let paperMaterial := set_ambientColor (glm.mkVec3 0.49 0.41 0.28) paperMaterial in
  let paperMaterial := set_ambientStrength 0.2 paperMaterial in
  let paperMaterial := set_diffuseColor (glm.mkVec3 0.69 0.63 0.53) paperMaterial in
  let paperMaterial := set_specularColor (glm.mkVec3 0.85 0.8 0.69) paperMaterial in
  let paperMaterial := set_shininess 0.5 paperMaterial in
  let paperMaterial := set_tag "parchment" paperMaterial in
  push_back paperMaterial.

(** ** Notions the statements are written with *)

(** The matrix [SetTransformations] composes, as a function of its five
    arguments. *)
Definition model_matrix (scaleXYZ : glm.vec3) (rx ry rz : float)
    (positionXYZ : glm.vec3) : glm.mat4 :=
  glm.mul (glm.mul (glm.mul (glm.mul (glm.translate positionXYZ)
                                     (glm.rotate (glm.radians rx) (glm.mkVec3 1 0 0)))
                            (glm.rotate (glm.radians ry) (glm.mkVec3 0 1 0)))
                   (glm.rotate (glm.radians rz) (glm.mkVec3 0 0 1)))
          (glm.scale scaleXYZ).

(** The loaded-texture count lies within the array. The header declaring
    the array is not part of the source; where its size of 16 matters it is
    a hypothesis of the statement. *)
Definition registry_ok (w : World) : Prop :=
  0 ≤ m_loadedTextures w ≤ Z.of_nat (length (m_textureIDs w)).

#[global] Instance registry_ok_dec (w : World) : Decision (registry_ok w).
Proof. unfold registry_ok. apply _. Defined.

(** The entries the lookups scan: the first [m_loadedTextures] ones. *)
Definition loaded_entries (w : World) : list TEXTURE_INFO :=
  take (Z.to_nat (m_loadedTextures w)) (m_textureIDs w).

(** A channel count [CreateGLTexture] can upload. *)
Definition supported (img : Image) : bool :=
  (colorChannels img =? 3) || (colorChannels img =? 4).

(** The file decodes to an image with a supported channel count. *)
Definition loads (w : World) (filename : string) : bool :=
  match stbi_load w filename with
  | Some img => supported img
  | None => false
  end.

(** A sequence of registration operations, each a file name and a tag, run
    in order; the results of the calls are collected. *)
Fixpoint register_all (ops : list (string * string)) : M (list bool) :=
  match ops with
  | [] => mret []
  | (filename, t) :: ops' =>
      r ← CreateGLTexture filename t;
      rs ← register_all ops';
      mret (r :: rs)
  end.

(** The tags of the operations that returned [true], in order. *)
Fixpoint registered (ops : list (string * string)) (rs : list bool) : list string :=
  match ops, rs with
  | (_, t) :: ops', true :: rs' => t :: registered ops' rs'
  | _ :: ops', false :: rs' => registered ops' rs'
  | _, _ => []
  end.

(** The fifteen registrations of [LoadSceneTextures], in source order. *)
Definition scene_textures : list (string * string) :=
  [ ("textures/granite_texture.jpg", "island top");
    ("textures/plaster_texture.jpg", "island stand");
    ("textures/wicker_light_texture.jpg", "stand base");
    ("textures/light_wood_texture.jpg", "top torus");
    ("textures/bamboo_texture.jpg", "torus");
    ("textures/granite_texture.jpg", "island top");
    ("textures/wood_shiny_texture.jpg", "bottom torus");
    ("textures/wood_floor_texture.jpg", "floor");
    ("textures/matte_black_metal.jpg", "candle snuffer");
    ("textures/ceramic_texture.jpg", "pottery");
    ("textures/leather_texture1.jpg", "fruit");
    ("textures/paper_texture2.jpg", "paper");
    ("textures/wax_texture.jpg", "wax");
    ("textures/dark_wood_texture1.jpg", "dark wood");
    ("textures/stainless.jpg", "steel") ]%string.

(** Slots follow the load order: the count is the number of successful
    loads, it is at most 16, and the loaded entries carry the tags of the
    successful loads in order. *)
Definition load_order (ops : list (string * string)) (rs : list bool) (w : World) : Prop :=
  m_loadedTextures w = Z.of_nat (length (registered ops rs))
  ∧ 0 ≤ m_loadedTextures w ≤ 16
  ∧ length (m_textureIDs w) = 16%nat
  ∧ tag <$> loaded_entries w = registered ops rs.

(** Two worlds that differ at most in the texture registry and the OpenGL
    trace. *)
Definition same_surroundings (w w' : World) : Prop :=
  stbi_load w' = stbi_load w ∧ gl_driver w' = gl_driver w
  ∧ m_pShaderManager w' = m_pShaderManager w
  ∧ m_objectMaterials w' = m_objectMaterials w
  ∧ length (m_textureIDs w') = length (m_textureIDs w).

(** What the teardown loop has done once its counter stands at [i]: it has
    issued [i] generate calls and nothing else, and entry [j < i] carries
    the [j]-th generated name while keeping its tag. *)
Definition regenerated (w0 : World) (i : Z) (w : World) : Prop :=
  same_surroundings w0 w
  ∧ m_loadedTextures w = m_loadedTextures w0
  ∧ ∃ names : list Z,
      length names = Z.to_nat i
      ∧ gl_calls w = gl_calls w0 ++ (glGenTextures <$> names)
      ∧ (∀ (j : nat) (name : Z), names !! j = Some name →
           0 ≤ name < 2 ^ 32
           ∧ m_textureIDs w !! j = with_ID name <$> m_textureIDs w0 !! j)
      ∧ (∀ j : nat, (Z.to_nat i ≤ j)%nat → m_textureIDs w !! j = m_textureIDs w0 !! j).

(** The value a uniform holds in the attached sink. *)
Definition uniform_of (w : World) (name : string) : option uniform :=
  sm ← m_pShaderManager w; uniforms sm !! name.

(** The two calls that set the texture-use flag, and sequences of them. *)
Inductive shading_call :=
| ColorCall (r g b a : float)
| TextureCall (textureTag : string).

Definition shade (c : shading_call) : M unit :=
  match c with
  | ColorCall r g b a => SetShaderColor r g b a
  | TextureCall t => SetShaderTexture t
  end.

Fixpoint shade_all (cs : list shading_call) : M unit :=
  match cs with
  | [] => mret tt
  | c :: cs' => shade c;; shade_all cs'
  end.

Definition is_texture_call (c : shading_call) : bool :=
  match c with TextureCall _ => true | ColorCall _ _ _ _ => false end.

(** ** Concrete states the statements are evaluated on *)

Definition blank_entries : list TEXTURE_INFO := replicate 16 (mkTextureInfo 0 "").

(** A freshly constructed manager with a sink; every file decodes to an RGB
    image and the driver hands out distinct names. *)
Definition scene_world : World :=
  mkWorld (λ _, Some (mkImage 64 64 3)) (λ calls, Z.of_nat (length calls) + 1) []
          (Some []) 0 blank_entries [].

(** One material, "metal"; no texture loaded; the flag pushed as 0. *)
Definition miss_world : World :=
  mkWorld (λ _, None) (λ _, 1) [] (Some [("bUseTexture"%string, UInt 0)]) 0
          blank_entries [set_tag "metal" default_material].

(** One loaded entry whose ID is the largest GLuint; no sink. *)
Definition high_id_world : World :=
  mkWorld (λ _, None) (λ _, 1) [] None 1 [mkTextureInfo 4294967295 "a"] [].

(** Three registrations, the middle one of a file that does not decode. *)
Definition two_textures : list (string * string) :=
  [("a.png", "a"); ("missing.png", "x"); ("b.png", "b")]%string.

Definition two_textures_world : World :=
  mkWorld (λ f, if String.eqb f "missing.png" then None else Some (mkImage 8 8 4))
          (λ calls, Z.of_nat (length calls) + 1) [] None 0 blank_entries [].

(** Two loaded entries; every file decodes to a one-channel image. *)
Definition grey_image_world : World :=
  mkWorld (λ _, Some (mkImage 8 8 1)) (λ _, 7) [] None 2
          (<[1%nat := mkTextureInfo 4 "b"]> (<[0%nat := mkTextureInfo 3 "a"]> blank_entries)) [].


(** ** Further functions and notions *)

(** [setVec3Value(name, x, y, z)], the overload taking three floats. *)
Definition setVec3Value3 (name : string) (x y z : float) : M unit :=
  setVec3Value name (Some (glm.mkVec3 x y z)).

(** [SetupSceneLights] calls through [m_pShaderManager] without a null
    test. *)
Definition SetupSceneLights : M unit :=
  setBoolValue g_UseLightingName true;;
  setVec3Value3 "lightSources[0].position" 0.0 15.0 2.0;;
  setVec3Value3 "lightSources[0].ambientColor" 0.05 0.05 0.05;;
  setVec3Value3 "lightSources[0].diffuseColor" 0.8 0.8 0.8;;
  setVec3Value3 "lightSources[0].specularColor" 0.2 0.2 0.2;;
  setFloatValue "lightSources[0].focalStrength" (Some 20.0%R);;
  setFloatValue "lightSources[0].specularIntensity" (Some 0.1%R);;
  setVec3Value3 "lightSources[1].position" (-4.0) 12.0 3.0;;
  setVec3Value3 "lightSources[1].ambientColor" 0.1 0.1 0.1;;
  setVec3Value3 "lightSources[1].diffuseColor" 0.25 0.25 0.25;;
  setVec3Value3 "lightSources[1].specularColor" 0.0 0.0 0.0;;
  setFloatValue "lightSources[1].focalStrength" (Some 15.0%R);;
  setFloatValue "lightSources[1].specularIntensity" (Some 0.1%R).

(** The names [SetupSceneLights] pushes under. *)
Definition light_uniform_names : list string :=
  [ "bUseLighting";
    "lightSources[0].position"; "lightSources[0].ambientColor";
    "lightSources[0].diffuseColor"; "lightSources[0].specularColor";
    "lightSources[0].focalStrength"; "lightSources[0].specularIntensity";
    "lightSources[1].position"; "lightSources[1].ambientColor";
    "lightSources[1].diffuseColor"; "lightSources[1].specularColor";
    "lightSources[1].focalStrength"; "lightSources[1].specularIntensity" ]%string.

(** The calls that bind the given entries to consecutive texture units,
    starting at unit [i]. *)
Fixpoint bind_calls (i : Z) (es : list TEXTURE_INFO) : list GLCall :=
  match es with
  | [] => []
  | e :: es' => glActiveTexture i :: glBindTexture (ID e) :: bind_calls (i + 1) es'
  end.

(** The uniform values the attached sink holds, by name. *)
Definition uniform_state (w : World) : option (gmap string uniform) :=
  uniforms <$> m_pShaderManager w.

(** The first entry of the material registry carrying the tag. *)
Definition first_material (w : World) (t : string) : option OBJECT_MATERIAL :=
  snd <$> list_find (λ m, mtag m = t) (m_objectMaterials w).

(** The five pushes of [SetShaderMaterial], newest first. *)
Definition material_pushes (m : OBJECT_MATERIAL) : list (string * uniform) :=
  [ ("material.shininess", UFloat (shininess m));
    ("material.specularColor", UVec3 (specularColor m));
    ("material.diffuseColor", UVec3 (diffuseColor m));
    ("material.ambientStrength", UFloat (ambientStrength m));
    ("material.ambientColor", UVec3 (ambientColor m)) ]%string.

(** A registry with room left, holding "a" and "b"; every file decodes to
    an RGBA image. *)
Definition ab_world : World :=
  mkWorld (λ _, Some (mkImage 8 8 4)) (λ calls, Z.of_nat (length calls) + 10) []
          (Some []) 2
          (<[1%nat := mkTextureInfo 4 "b"]> (<[0%nat := mkTextureInfo 3 "a"]> blank_entries)) [].

(** A registry of two entries that is full. *)
Definition full_world : World :=
  mkWorld (λ _, Some (mkImage 8 8 3)) (λ _, 9) [] None 2
          [mkTextureInfo 3 "a"; mkTextureInfo 4 "b"] [].

(** Slots 0 and 2 both carry "a". *)
Definition duplicate_world : World :=
  mkWorld (λ _, None) (λ _, 1) [] None 3
          [mkTextureInfo 3 "a"; mkTextureInfo 4 "b"; mkTextureInfo 5 "a"] [].

(** The materials of the scene defined on a fresh manager with a sink, and
    the same without a sink. *)
Definition two_materials : list OBJECT_MATERIAL :=
  [ set_shininess 1 (set_tag "a" default_material);
    set_shininess 2 (set_tag "b" default_material);
    set_shininess 3 (set_tag "a" default_material) ].

Definition materials_world : World :=
  mkWorld (λ _, None) (λ _, 1) [] (Some []) 0 blank_entries two_materials.

Definition sinkless_materials_world : World :=
  mkWorld (λ _, None) (λ _, 1) [] None 0 blank_entries two_materials.

(** The seven records [DefineObjectMaterials] appends, as it leaves them in
    the registry. *)
Definition scene_materials : list OBJECT_MATERIAL :=
  [ mkMaterial (Some (glm.mkVec3 0.3 0.3 0.3)) (Some 0.5%R)
               (Some (glm.mkVec3 0.25 0.25 0.25)) (Some (glm.mkVec3 0.4 0.4 0.4))
               (Some 30.0%R) "metal";
    mkMaterial (Some (glm.mkVec3 0.20 0.20 0.20)) (Some 0.25%R)
               (Some (glm.mkVec3 0.4 0.4 0.4)) (Some (glm.mkVec3 0.15 0.15 0.15))
               (Some 0.3%R) "wood";
    mkMaterial (Some (glm.mkVec3 0.4 0.4 0.4)) (Some 0.3%R)
               (Some (glm.mkVec3 0.3 0.3 0.3)) (Some (glm.mkVec3 0.6 0.6 0.6))
               (Some 85.0%R) "glass";
    mkMaterial (Some (glm.mkVec3 0.6 0.6 0.6)) (Some 0.25%R)
               (Some (glm.mkVec3 0.86 0.82 0.78)) (Some (glm.mkVec3 0.0 0.0 0.0))
               None "ceramic";
    mkMaterial (Some (glm.mkVec3 0.45 0.45 0.45)) (Some 0.7%R)
               (Some (glm.mkVec3 0.4 0.5 0.35)) (Some (glm.mkVec3 0.1 0.1 0.1))
               (Some 0.0%R) "walling";
    mkMaterial (Some (glm.mkVec3 0.56 0.45 0.113)) (Some 0.2%R)
               (Some (glm.mkVec3 0.76 0.64 0.2)) (Some (glm.mkVec3 0.76 0.64 0.2))
               (Some 0.0%R) "leather";
    mkMaterial (Some (glm.mkVec3 0.49 0.41 0.28)) (Some 0.2%R)
               (Some (glm.mkVec3 0.69 0.63 0.53)) (Some (glm.mkVec3 0.85 0.8 0.69))
               (Some 0.5%R) "parchment" ].

(** The attributes [SetShaderMaterial] pushes for a tag: those of the first
    entry carrying it, or those of its own uninitialised local when no
    entry does. *)
Definition pushed_material (w : World) (t : string) : OBJECT_MATERIAL :=
  match first_material w t with
  | Some e => copy_attributes e default_material
  | None => default_material
  end.

(** A direction of space as a homogeneous column: its fourth coordinate
    is 0. *)
Definition direction (d : glm.vec3) : glm.vec4 :=
  glm.mkVec4 (glm.x3 d) (glm.y3 d) (glm.z3 d) 0.

(** The mesh provider ([ShapeMeshes]) is a collaborator outside this file;
    of it only the sequence of load calls is kept. *)
Inductive MeshLoad :=
| LoadPlaneMesh | LoadTorusMesh | LoadSphereMesh
| LoadCylinderMesh | LoadBoxMesh | LoadTaperedCylinderMesh.

Record Scene := mkScene { world : World; mesh_loads : list MeshLoad }.

(** [PrepareScene]: textures, materials and lights, then the six mesh
    loads. *)
Definition PrepareScene (s : Scene) : option Scene :=
  match (LoadSceneTextures;; DefineObjectMaterials;; SetupSceneLights) (world s) with
  | Some (_, w') =>
      Some (mkScene w' (mesh_loads s ++
                        [ LoadPlaneMesh; LoadTorusMesh; LoadSphereMesh;
                          LoadCylinderMesh; LoadBoxMesh; LoadTaperedCylinderMesh ]))
  | None => None
  end.

(** * Properties *)

(** ** Running the monad *)

Lemma bind_run {A B} (m : M A) (f : A → M B) (w : World) :
  (m ≫= f) w = match m w with Some (a, w') => f a w' | None => None end.
Proof. reflexivity. Qed.

Lemma ret_run {A} (a : A) (w : World) : (mret a : M A) w = Some (a, w).
Proof. reflexivity. Qed.

Ltac run :=
  repeat (rewrite ?bind_run, ?ret_run; unfold gets, modify, gl, undefined; cbn beta iota).

(** ** The model matrix *)
Section transform.
Local Open Scope R_scope.
Import glm.

Ltac glm_unfold :=
  cbv [mulv mul vadd vscale point scale translate identity
       scale_point translate_point rotate_x_point rotate_y_point rotate_z_point
       col0 col1 col2 col3 x4 y4 z4 w4 x3 y3 z3].

Lemma mulv_mul (a b : mat4) (v : vec4) : mulv (mul a b) v = mulv a (mulv b v).
Proof.
  destruct a as [[] [] [] []], b as [[] [] [] []], v.
  glm_unfold. f_equal; ring.
Qed.

Lemma normalize_unit (v : vec3) : dot v v = 1 → normalize v = v.
Proof.
  intros Hd. unfold normalize. rewrite Hd, sqrt_1. destruct v; cbv [x3 y3 z3].
  f_equal; field.
Qed.

Lemma scale_point_apply (s p : vec3) :
  mulv (scale s) (point p) = point (scale_point s p).
Proof.
  destruct s, p. glm_unfold. f_equal; ring.
Qed.

Lemma translate_point_apply (t p : vec3) :
  mulv (translate t) (point p) = point (translate_point t p).
Proof.
  destruct t, p. glm_unfold. f_equal; ring.
Qed.

Lemma rotate_x_point_apply (a : float) (p : vec3) :
  mulv (rotate a (mkVec3 1 0 0)) (point p) = point (rotate_x_point a p).
Proof.
  unfold rotate. rewrite normalize_unit by (cbv [dot x3 y3 z3]; ring).
  destruct p. glm_unfold. f_equal; ring.
Qed.

Lemma rotate_y_point_apply (a : float) (p : vec3) :
  mulv (rotate a (mkVec3 0 1 0)) (point p) = point (rotate_y_point a p).
Proof.
  unfold rotate. rewrite normalize_unit by (cbv [dot x3 y3 z3]; ring).
  destruct p. glm_unfold. f_equal; ring.
Qed.

Lemma rotate_z_point_apply (a : float) (p : vec3) :
  mulv (rotate a (mkVec3 0 0 1)) (point p) = point (rotate_z_point a p).
Proof.
  unfold rotate. rewrite normalize_unit by (cbv [dot x3 y3 z3]; ring).
  destruct p. glm_unfold. f_equal; ring.
Qed.

Lemma radians_90 : radians 90 = PI / 2.
Proof. unfold radians. field. Qed.

Lemma radians_0 : radians 0 = 0.
Proof. unfold radians. field. Qed.

Lemma SetTransformations_run (s : vec3) (rx ry rz : float) (t : vec3) (w : World) :
  SetTransformations s rx ry rz t w =
  match m_pShaderManager w with
  | Some sm =>
      Some (tt, with_shader (Some ((g_ModelName, UMat4 (model_matrix s rx ry rz t)) :: sm)) w)
  | None => Some (tt, w)
  end.
Proof.
  unfold SetTransformations. run.
  destruct (m_pShaderManager w) eqn:Hp; [|reflexivity].
  unfold setMat4Value, push. rewrite Hp. reflexivity.
Qed.

(** C1 (as amended): with a sink attached, [SetTransformations] returns
    nothing and pushes exactly one value, under the name "model": the
    product Translation x RotationX x RotationY x RotationZ x Scale with the
    angles converted to radians. Applied to a point, that matrix scales
    first, then rotates about Z, then about Y, then about X, and translates
    last. *)
Theorem SetTransformations_pushes_model (s : vec3) (rx ry rz : float) (t : vec3)
    (w : World) (sm : ShaderManager) :
  m_pShaderManager w = Some sm →
  ∃ m : mat4,
    SetTransformations s rx ry rz t w
      = Some (tt, with_shader (Some (("model"%string, UMat4 m) :: sm)) w)
    ∧ m = mul (mul (mul (mul (translate t) (rotate (radians rx) (mkVec3 1 0 0)))
                        (rotate (radians ry) (mkVec3 0 1 0)))
                   (rotate (radians rz) (mkVec3 0 0 1)))
              (scale s)
    ∧ ∀ p : vec3,
        mulv m (point p)
        = point (translate_point t
                   (rotate_x_point (radians rx)
                      (rotate_y_point (radians ry)
                         (rotate_z_point (radians rz) (scale_point s p))))).
Proof.
  intros Hp. exists (model_matrix s rx ry rz t). split; [|split].
  - rewrite SetTransformations_run, Hp. reflexivity.
  - reflexivity.
  - intros p. unfold model_matrix. rewrite !mulv_mul.
    rewrite scale_point_apply, rotate_z_point_apply, rotate_y_point_apply,
      rotate_x_point_apply, translate_point_apply.
    reflexivity.
Qed.

Lemma SetTransformations_pushes_model_witness :
  ∃ m : mat4,
    SetTransformations (mkVec3 2 1 1) 0 0 90 (mkVec3 1 0 0)
        (mkWorld (λ _, None) (λ _, 1%Z) [] (Some []) 0 [] [])
      = Some (tt, with_shader (Some [("model"%string, UMat4 m)])
                    (mkWorld (λ _, None) (λ _, 1%Z) [] (Some []) 0 [] []))
    ∧ mulv m (point (mkVec3 1 0 0)) = mkVec4 1 2 0 1.
Proof.
  destruct (SetTransformations_pushes_model (mkVec3 2 1 1) 0 0 90 (mkVec3 1 0 0)
              (mkWorld (λ _, None) (λ _, 1%Z) [] (Some []) 0 [] []) [] eq_refl)
    as (m & Hrun & _ & Happ).
  exists m. split; [exact Hrun|].
  rewrite Happ. rewrite radians_0, radians_90.
  glm_unfold. rewrite cos_0, sin_0, cos_PI2, sin_PI2. f_equal; ring.
Defined.

(** C1 as stated fails: the rotation about X is not applied before the
    rotations about Y and Z. With unit scale, no translation and quarter
    turns about X and Y, the pushed matrix sends (1,0,0) to (0,1,0), whereas
    rotating about X first and about Y second sends it to (0,0,-1). *)
Lemma SetTransformations_order_counterexample :
  ¬ (∀ (s : vec3) (rx ry rz : float) (t : vec3) (w : World) (sm : ShaderManager),
       m_pShaderManager w = Some sm →
       ∃ m : mat4,
         SetTransformations s rx ry rz t w
           = Some (tt, with_shader (Some (("model"%string, UMat4 m) :: sm)) w)
         ∧ ∀ p : vec3,
             mulv m (point p)
             = point (translate_point t
                        (rotate_z_point (radians rz)
                           (rotate_y_point (radians ry)
                              (rotate_x_point (radians rx) (scale_point s p)))))).
Proof.
  intros H.
  destruct (H (mkVec3 1 1 1) 90 90 0 (mkVec3 0 0 0)
              (mkWorld (λ _, None) (λ _, 1%Z) [] (Some []) 0 [] []) [] eq_refl)
    as (m & Hrun & Happ).
  rewrite SetTransformations_run in Hrun.
  assert (Hm : m = model_matrix (mkVec3 1 1 1) 90 90 0 (mkVec3 0 0 0)).
  { unfold with_shader in Hrun; cbn [m_pShaderManager] in Hrun.
    injection Hrun as Hm. symmetry. exact Hm. }
  specialize (Happ (mkVec3 1 0 0)). subst m.
  unfold model_matrix in Happ. rewrite !mulv_mul in Happ.
  rewrite scale_point_apply, rotate_z_point_apply, rotate_y_point_apply,
    rotate_x_point_apply, translate_point_apply in Happ.
  rewrite radians_0, radians_90 in Happ.
  cbv [point translate_point rotate_x_point rotate_y_point rotate_z_point
       scale_point x3 y3 z3] in Happ.
  rewrite cos_0, sin_0, cos_PI2, sin_PI2 in Happ.
  injection Happ as _ Hy _. lra.
Qed.

End transform.

(** ** Registering one texture *)

Lemma store_texture_run (i : Z) (f : TEXTURE_INFO → TEXTURE_INFO) (w : World) :
  0 ≤ i < Z.of_nat (length (m_textureIDs w)) →
  store_texture i f w = Some (tt, with_textureIDs (alter f (Z.to_nat i) (m_textureIDs w)) w).
Proof. intros H. unfold store_texture. rewrite bool_decide_eq_true_2; done. Qed.

Lemma store_texture_overflow (i : Z) (f : TEXTURE_INFO → TEXTURE_INFO) (w : World) :
  ¬ 0 ≤ i < Z.of_nat (length (m_textureIDs w)) → store_texture i f w = None.
Proof. intros H. unfold store_texture. rewrite bool_decide_eq_false_2; done. Qed.

Lemma alter_entry (n : nat) (name : Z) (t : string) (l : list TEXTURE_INFO) :
  alter (with_tag t) n (alter (with_ID name) n l) = <[n := mkTextureInfo name t]> l.
Proof.
  revert n. induction l as [|e l IH]; intros [|n]; cbn; try reflexivity.
  f_equal. apply IH.
Qed.

Lemma register_texture_run (textureID : Z) (tag : string) (w : World) :
  0 ≤ m_loadedTextures w < Z.of_nat (length (m_textureIDs w)) →
  register_texture textureID tag w
  = Some (true,
          with_loadedTextures (m_loadedTextures w + 1)
            (with_textureIDs
               (<[Z.to_nat (m_loadedTextures w) := mkTextureInfo textureID tag]> (m_textureIDs w))
               (with_gl_calls (gl_calls w ++ [glGenerateMipmap; glBindTexture 0]) w))).
Proof.
  intros Hn. destruct w as [ld dr calls sm n arr ms]; cbn in Hn.
  unfold register_texture. run. cbn.
  rewrite store_texture_run by (cbn; lia). run. cbn.
  rewrite store_texture_run by (cbn; rewrite length_alter; lia). cbn.
  rewrite alter_entry, <- app_assoc. reflexivity.
Qed.

Lemma register_texture_overflow (textureID : Z) (tag : string) (w : World) :
  ¬ 0 ≤ m_loadedTextures w < Z.of_nat (length (m_textureIDs w)) →
  register_texture textureID tag w = None.
Proof.
  intros Hn. destruct w as [ld dr calls sm n arr ms]; cbn in Hn.
  unfold register_texture. run. cbn.
  rewrite store_texture_overflow by (cbn; lia). reflexivity.
Qed.

Lemma CreateGLTexture_failure (filename tag : string) (w : World) :
  loads w filename = false →
  ∃ calls, CreateGLTexture filename tag w = Some (false, with_gl_calls (gl_calls w ++ calls) w).
Proof.
  unfold loads, supported, CreateGLTexture. run.
  destruct (stbi_load w filename) as [img|] eqn:Himg.
  - intros [H3 H4]%orb_false_iff. unfold gen_texture. run. cbn.
    rewrite H3, H4. run. eexists. rewrite <- !app_assoc. reflexivity.
  - intros _. exists []. rewrite app_nil_r. destruct w; reflexivity.
Qed.

Lemma CreateGLTexture_success (filename tag : string) (w : World) :
  loads w filename = true →
  0 ≤ m_loadedTextures w < Z.of_nat (length (m_textureIDs w)) →
  ∃ calls name,
    CreateGLTexture filename tag w
    = Some (true,
            with_loadedTextures (m_loadedTextures w + 1)
              (with_textureIDs
                 (<[Z.to_nat (m_loadedTextures w) := mkTextureInfo name tag]> (m_textureIDs w))
                 (with_gl_calls (gl_calls w ++ calls) w)))
    ∧ 0 ≤ name < 2 ^ 32.
Proof.
  destruct w as [ld dr calls sm n arr ms].
  unfold loads, supported, CreateGLTexture. run. cbn.
  destruct (ld filename) as [img|] eqn:Himg; [|discriminate].
  intros Hs Hn. unfold gen_texture. run. cbn.
  destruct (colorChannels img =? 3) eqn:H3;
    [|destruct (colorChannels img =? 4) eqn:H4; [|discriminate]].
  all: run; cbn; rewrite register_texture_run by (cbn; lia); cbn.
  all: eexists _, _; split;
    [rewrite <- !app_assoc; reflexivity | apply Z.mod_pos_bound; lia].
Qed.

Lemma CreateGLTexture_overflow (filename tag : string) (w : World) :
  loads w filename = true →
  ¬ 0 ≤ m_loadedTextures w < Z.of_nat (length (m_textureIDs w)) →
  CreateGLTexture filename tag w = None.
Proof.
  destruct w as [ld dr calls sm n arr ms].
  unfold loads, supported, CreateGLTexture. run. cbn.
  destruct (ld filename) as [img|] eqn:Himg; [|discriminate].
  intros Hs Hn. unfold gen_texture. run. cbn.
  destruct (colorChannels img =? 3) eqn:H3;
    [|destruct (colorChannels img =? 4) eqn:H4; [|discriminate]].
  all: run; cbn; rewrite register_texture_overflow by (cbn; lia); reflexivity.
Qed.

(** C4: when the file cannot be decoded, or decodes to an image whose
    channel count is neither 3 nor 4, [CreateGLTexture] returns [false] and
    neither [m_textureIDs] nor [m_loadedTextures] changes. *)
Theorem CreateGLTexture_failure_keeps_registry (filename t : string) (w : World) :
  (stbi_load w filename = None
   ∨ ∃ img, stbi_load w filename = Some img
            ∧ colorChannels img ≠ 3 ∧ colorChannels img ≠ 4) →
  ∃ w', CreateGLTexture filename t w = Some (false, w')
        ∧ m_textureIDs w' = m_textureIDs w
        ∧ m_loadedTextures w' = m_loadedTextures w.
Proof.
  intros Hfail.
  assert (Hl : loads w filename = false).
  { unfold loads, supported. destruct Hfail as [->|(img & -> & H3 & H4)]; [done|].
    apply orb_false_iff. split; apply Z.eqb_neq; done. }
  destruct (CreateGLTexture_failure filename t w Hl) as (calls & ->).
  eexists. split; [reflexivity|]. by destruct w.
Qed.

Lemma CreateGLTexture_failure_keeps_registry_witness :
  ∃ w', CreateGLTexture "grey.png" "g" grey_image_world = Some (false, w')
        ∧ m_textureIDs w' = m_textureIDs grey_image_world
        ∧ m_loadedTextures w' = 2.
Proof.
  apply (CreateGLTexture_failure_keeps_registry "grey.png" "g" grey_image_world).
  right. exists (mkImage 8 8 1). cbn. split; [reflexivity|]. split; lia.
Defined.

(** ** The two lookups *)

Lemma tag_matches_true (e : TEXTURE_INFO) (t : string) : tag_matches e t = true ↔ tag e = t.
Proof. unfold tag_matches. apply String.eqb_eq. Qed.

Lemma tag_matches_decide (e : TEXTURE_INFO) (t : string) :
  tag_matches e t = bool_decide (tag e = t).
Proof.
  destruct (tag_matches e t) eqn:H.
  - symmetry. apply bool_decide_eq_true_2. by apply tag_matches_true.
  - symmetry. apply bool_decide_eq_false_2. intros H'%tag_matches_true. congruence.
Qed.

Lemma texture_at_loaded (w : World) (index : Z) :
  0 ≤ index < m_loadedTextures w →
  texture_at w index = loaded_entries w !! Z.to_nat index.
Proof.
  intros H. unfold texture_at, loaded_entries.
  rewrite bool_decide_eq_true_2 by lia. rewrite lookup_take_lt by lia. reflexivity.
Qed.

Lemma loaded_entries_length (w : World) :
  registry_ok w → length (loaded_entries w) = Z.to_nat (m_loadedTextures w).
Proof. intros H. unfold loaded_entries, registry_ok in *. rewrite length_take. lia. Qed.

(** Both lookup loops are the same front-to-back scan: from [index] on, the
    first entry carrying the tag decides the result. *)
Lemma FindTextureSlot_loop_scan (w : World) (t : string) (fuel : nat) :
  registry_ok w →
  ∀ (textureSlot index : Z),
    0 ≤ index →
    (Z.to_nat (m_loadedTextures w - index) ≤ fuel)%nat →
    FindTextureSlot_loop fuel w t textureSlot index false
    = Some match list_find (λ e, tag e = t) (drop (Z.to_nat index) (loaded_entries w)) with
           | Some (k, _) => index + Z.of_nat k
           | None => textureSlot
           end.
Proof.
  intros Hok. induction fuel as [|fuel IH]; intros ts index Hi Hfuel.
  - cbn. rewrite (proj2 (Z.ltb_ge _ _)) by lia. cbn.
    rewrite drop_ge by (rewrite loaded_entries_length by done; lia). reflexivity.
  - cbn. destruct (index <? m_loadedTextures w) eqn:Hlt; cbn.
    + apply Z.ltb_lt in Hlt. rewrite texture_at_loaded by lia.
      destruct (loaded_entries w !! Z.to_nat index) as [e|] eqn:He.
      2:{ apply lookup_ge_None in He. rewrite loaded_entries_length in He by done. lia. }
      cbn. rewrite (drop_S _ _ _ He). cbn.
      rewrite tag_matches_decide. case_bool_decide as Ht.
      * rewrite decide_True by done. cbn.
        destruct fuel; cbn; rewrite andb_false_r; f_equal; lia.
      * rewrite decide_False by done. rewrite IH by lia.
        replace (Z.to_nat (index + 1)) with (S (Z.to_nat index)) by lia.
        destruct (list_find _ _) as [[k e']|]; cbn; f_equal; lia.
    + apply Z.ltb_ge in Hlt.
      rewrite drop_ge by (rewrite loaded_entries_length by done; lia). reflexivity.
Qed.

Lemma FindTextureID_loop_scan (w : World) (t : string) (fuel : nat) :
  registry_ok w →
  ∀ (textureID index : Z),
    0 ≤ index →
    (Z.to_nat (m_loadedTextures w - index) ≤ fuel)%nat →
    FindTextureID_loop fuel w t textureID index false
    = Some match list_find (λ e, tag e = t) (drop (Z.to_nat index) (loaded_entries w)) with
           | Some (_, e) => int_of_GLuint (ID e)
           | None => textureID
           end.
Proof.
  intros Hok. induction fuel as [|fuel IH]; intros ts index Hi Hfuel.
  - cbn. rewrite (proj2 (Z.ltb_ge _ _)) by lia. cbn.
    rewrite drop_ge by (rewrite loaded_entries_length by done; lia). reflexivity.
  - cbn. destruct (index <? m_loadedTextures w) eqn:Hlt; cbn.
    + apply Z.ltb_lt in Hlt. rewrite texture_at_loaded by lia.
      destruct (loaded_entries w !! Z.to_nat index) as [e|] eqn:He.
      2:{ apply lookup_ge_None in He. rewrite loaded_entries_length in He by done. lia. }
      cbn. rewrite (drop_S _ _ _ He). cbn.
      rewrite tag_matches_decide. case_bool_decide as Ht.
      * rewrite decide_True by done. cbn.
        destruct fuel; cbn; rewrite andb_false_r; reflexivity.
      * rewrite decide_False by done. rewrite IH by lia.
        replace (Z.to_nat (index + 1)) with (S (Z.to_nat index)) by lia.
        destruct (list_find _ _) as [[k e']|]; reflexivity.
    + apply Z.ltb_ge in Hlt.
      rewrite drop_ge by (rewrite loaded_entries_length by done; lia). reflexivity.
Qed.

Lemma FindTextureSlot_scan (w : World) (t : string) :
  registry_ok w →
  FindTextureSlot w t
  = Some match list_find (λ e, tag e = t) (loaded_entries w) with
         | Some (k, _) => Z.of_nat k
         | None => -1
         end.
Proof.
  intros Hok. unfold FindTextureSlot.
  rewrite FindTextureSlot_loop_scan by (done || lia). cbn.
  destruct (list_find _ _) as [[k e]|]; reflexivity.
Qed.

Lemma FindTextureID_scan (w : World) (t : string) :
  registry_ok w →
  FindTextureID w t
  = Some match list_find (λ e, tag e = t) (loaded_entries w) with
         | Some (_, e) => int_of_GLuint (ID e)
         | None => -1
         end.
Proof.
  intros Hok. unfold FindTextureID.
  rewrite FindTextureID_loop_scan by (done || lia). reflexivity.
Qed.

Lemma list_find_tags (t : string) (l : list TEXTURE_INFO) :
  list_find (λ e, tag e = t) l
  = match list_find (λ x, x = t) (tag <$> l) with
    | Some (k, _) => (λ e, (k, e)) <$> l !! k
    | None => None
    end.
Proof.
  induction l as [|e l IH]; [reflexivity|]. cbn.
  destruct (decide (tag e = t)); [reflexivity|].
  rewrite IH. destruct (list_find _ (tag <$> l)) as [[k x]|]; cbn; [|reflexivity].
  destruct (l !! k); reflexivity.
Qed.

(** C10 (as amended): on a registry within its array both lookups return.
    When [FindTextureSlot] returns -1 so does [FindTextureID]; otherwise
    [FindTextureSlot] returns the index of a loaded entry carrying the tag
    and [FindTextureID] returns that entry's ID converted from GLuint to
    int, which is the stored ID, and differs from -1, when the ID is below
    2^31. *)
Theorem FindTextureID_agrees_with_slot (w : World) (t : string) :
  registry_ok w →
  ∃ slot : Z,
    FindTextureSlot w t = Some slot
    ∧ ((slot = -1 ∧ FindTextureID w t = Some (-1))
       ∨ (0 ≤ slot < m_loadedTextures w
          ∧ ∃ e, texture_at w slot = Some e
                 ∧ tag e = t
                 ∧ FindTextureID w t = Some (int_of_GLuint (ID e))
                 ∧ (0 ≤ ID e < 2 ^ 31 →
                    FindTextureID w t = Some (ID e) ∧ ID e ≠ -1))).
Proof.
  intros Hok. rewrite FindTextureSlot_scan, FindTextureID_scan by done.
  destruct (list_find (λ e, tag e = t) (loaded_entries w)) as [[k e]|] eqn:Hfind.
  - exists (Z.of_nat k). split; [done|]. right.
    apply list_find_Some in Hfind as (Hk & Ht & _).
    pose proof (lookup_lt_Some _ _ _ Hk) as Hlt.
    rewrite loaded_entries_length in Hlt by done.
    split; [lia|]. exists e.
    rewrite texture_at_loaded by lia. rewrite Nat2Z.id.
    repeat split; try done.
    + unfold int_of_GLuint. rewrite (proj2 (Z.ltb_lt _ _)) by lia. done.
    + lia.
  - exists (-1). split; [done|]. by left.
Qed.

Lemma FindTextureID_agrees_with_slot_witness :
  ∃ slot : Z,
    FindTextureSlot grey_image_world "b" = Some slot
    ∧ ((slot = -1 ∧ FindTextureID grey_image_world "b" = Some (-1))
       ∨ (0 ≤ slot < 2
          ∧ ∃ e, texture_at grey_image_world slot = Some e
                 ∧ tag e = "b"%string
                 ∧ FindTextureID grey_image_world "b" = Some (int_of_GLuint (ID e))
                 ∧ (0 ≤ ID e < 2 ^ 31 →
                    FindTextureID grey_image_world "b" = Some (ID e) ∧ ID e ≠ -1))).
Proof.
  apply (FindTextureID_agrees_with_slot grey_image_world "b").
  unfold registry_ok. cbn. lia.
Defined.

(** C10 as stated fails: the ID is a GLuint and the result an int, so an
    entry whose ID is 2^32-1 makes [FindTextureID] return -1 although
    [FindTextureSlot] finds the tag in slot 0. *)
Lemma FindTextureID_sentinel_counterexample :
  FindTextureSlot high_id_world "a" = Some 0
  ∧ FindTextureID high_id_world "a" = Some (-1)
  ∧ ID <$> texture_at high_id_world 0 = Some 4294967295.
Proof. repeat split. Qed.

(** ** Sequences of registrations *)

Lemma same_surroundings_refl (w : World) : same_surroundings w w.
Proof. by repeat split. Qed.

Lemma same_surroundings_trans (w1 w2 w3 : World) :
  same_surroundings w1 w2 → same_surroundings w2 w3 → same_surroundings w1 w3.
Proof. unfold same_surroundings. intros (?&?&?&?&?) (?&?&?&?&?). repeat split; congruence. Qed.

Lemma loads_same (w w' : World) (f : string) :
  same_surroundings w w' → loads w' f = loads w f.
Proof. intros (H&_). unfold loads. by rewrite H. Qed.

(** One registration, under the invariant: either it fails and the registry
    is untouched, or it appends one entry at the end of the loaded prefix;
    it is undefined exactly when a decodable image meets a full array. *)
Lemma CreateGLTexture_step (filename t : string) (w : World) :
  registry_ok w →
  match CreateGLTexture filename t w with
  | Some (r, w') =>
      r = loads w filename ∧ same_surroundings w w' ∧ registry_ok w'
      ∧ if r
        then m_loadedTextures w' = m_loadedTextures w + 1
             ∧ ∃ name, loaded_entries w' = loaded_entries w ++ [mkTextureInfo name t]
        else m_loadedTextures w' = m_loadedTextures w
             ∧ m_textureIDs w' = m_textureIDs w
  | None => loads w filename = true
            ∧ m_loadedTextures w = Z.of_nat (length (m_textureIDs w))
  end.
Proof.
  intros Hok. destruct (loads w filename) eqn:Hl.
  - destruct (decide (m_loadedTextures w < Z.of_nat (length (m_textureIDs w)))) as [Hlt|Hge].
    + destruct (CreateGLTexture_success filename t w Hl) as (calls & name & -> & Hname);
        [unfold registry_ok in Hok; lia|].
      destruct w as [ld dr cs sm n arr ms]; unfold registry_ok, loaded_entries in *; cbn in *.
      split; [done|]. split; [repeat split; cbn; by rewrite ?length_insert|].
      split; [rewrite length_insert; lia|]. split; [done|]. exists name.
      replace (Z.to_nat (n + 1)) with (S (Z.to_nat n)) by lia.
      rewrite (take_S_r _ _ (mkTextureInfo name t))
        by (apply list_lookup_insert_eq; lia).
      by rewrite take_insert_ge by lia.
    + rewrite CreateGLTexture_overflow by (done || lia).
      unfold registry_ok in Hok. split; [done | lia].
  - destruct (CreateGLTexture_failure filename t w Hl) as (calls & ->).
    destruct w as [ld dr cs sm n arr ms]; unfold registry_ok in *; cbn in *.
    repeat split; done || lia.
Qed.

(** The successful loads of a run, in order, are exactly what the loaded
    prefix of the array gains. *)
Lemma register_all_sound (ops : list (string * string)) :
  ∀ (w w' : World) (rs : list bool),
    registry_ok w →
    register_all ops w = Some (rs, w') →
    same_surroundings w w' ∧ registry_ok w'
    ∧ rs = (λ op, loads w op.1) <$> ops
    ∧ m_loadedTextures w' = m_loadedTextures w + Z.of_nat (length (registered ops rs))
    ∧ tag <$> loaded_entries w' = (tag <$> loaded_entries w) ++ registered ops rs.
Proof.
  induction ops as [|[f t] ops IH]; intros w w' rs Hok Hrun.
  - cbn in Hrun. injection Hrun as <- <-. cbn. rewrite app_nil_r, Z.add_0_r.
    repeat split; done || apply Hok.
  - cbn [register_all] in Hrun. rewrite bind_run in Hrun.
    pose proof (CreateGLTexture_step f t w Hok) as Hstep.
    destruct (CreateGLTexture f t w) as [[r w1]|]; [|discriminate].
    destruct Hstep as (Hr & Hsame & Hok1 & Hreg).
    rewrite bind_run in Hrun.
    destruct (register_all ops w1) as [[rs1 w2]|] eqn:Hrest; [|discriminate].
    rewrite ret_run in Hrun. injection Hrun as <- <-.
    destruct (IH w1 w2 rs1 Hok1 Hrest) as (Hsame' & Hok2 & Hrs & Hn & Htags).
    split; [eapply same_surroundings_trans; eassumption|]. split; [done|].
    split.
    { cbn. f_equal; [done|]. rewrite Hrs. apply list_fmap_ext. intros i op _.
      by apply loads_same. }
    destruct r; cbn [registered length].
    + destruct Hreg as (Hn1 & name & Hent). rewrite Hn, Hn1, Htags, Hent.
      rewrite fmap_app; cbn. rewrite <- app_assoc. split; [lia | done].
    + destruct Hreg as (Hn1 & Harr). rewrite Hn, Hn1, Htags.
      unfold loaded_entries. rewrite Hn1, Harr. split; [lia | done].
Qed.

(** A run is defined as long as the successful loads fit in the array. *)
Lemma register_all_defined (ops : list (string * string)) :
  ∀ w : World,
    registry_ok w →
    m_loadedTextures w + Z.of_nat (length (filter (λ op, loads w op.1 = true) ops))
      ≤ Z.of_nat (length (m_textureIDs w)) →
    is_Some (register_all ops w).
Proof.
  induction ops as [|[f t] ops IH]; intros w Hok Hfit.
  - cbn. by eexists.
  - cbn [register_all]. rewrite bind_run.
    pose proof (CreateGLTexture_step f t w Hok) as Hstep.
    destruct (CreateGLTexture f t w) as [[r w1]|].
    + destruct Hstep as (Hr & Hsame & Hok1 & Hreg).
      rewrite bind_run. destruct (IH w1) as [[rs w2] ->]; [done| |by eexists].
      rewrite filter_cons in Hfit. cbn in Hfit.
      destruct Hsame as (Hld & _ & _ & _ & Hlen). rewrite Hlen.
      rewrite (list_filter_iff _ (λ op, loads w op.1 = true))
        by (intros op; unfold loads; by rewrite Hld).
      destruct r.
      * destruct Hreg as (-> & _). rewrite <- Hr in Hfit.
        rewrite decide_True in Hfit by done. cbn in Hfit. lia.
      * destruct Hreg as (-> & _). rewrite <- Hr in Hfit.
        rewrite decide_False in Hfit by done. lia.
    + destruct Hstep as (Hl & Hfull). rewrite filter_cons in Hfit. cbn in Hfit.
      rewrite decide_True in Hfit by done. cbn in Hfit. lia.
Qed.

(** C3: after any sequence of registrations started on an empty registry,
    [FindTextureSlot] returns, for a tag registered by a successful load,
    the 0-based position of that tag's first successful load among the
    successful loads, and -1 for a tag no successful load registered. *)
Theorem FindTextureSlot_registration_order (ops : list (string * string))
    (w0 w : World) (rs : list bool) (t : string) :
  m_loadedTextures w0 = 0 →
  register_all ops w0 = Some (rs, w) →
  (∀ i : nat,
     registered ops rs !! i = Some t →
     (∀ j : nat, (j < i)%nat → registered ops rs !! j ≠ Some t) →
     FindTextureSlot w t = Some (Z.of_nat i))
  ∧ (t ∉ registered ops rs → FindTextureSlot w t = Some (-1)).
Proof.
  intros H0 Hrun.
  assert (Hok0 : registry_ok w0) by (unfold registry_ok; lia).
  destruct (register_all_sound ops w0 w rs Hok0 Hrun) as (_ & Hok & _ & Hn & Htags).
  unfold loaded_entries at 2 in Htags. rewrite H0 in Htags.
  change (Z.to_nat 0) with 0%nat in Htags. rewrite take_0 in Htags. cbn in Htags.
  rewrite FindTextureSlot_scan, list_find_tags, Htags by done.
  split.
  - intros i Hi Hfirst.
    assert (Hfind : list_find (λ x, x = t) (registered ops rs) = Some (i, t)).
    { apply list_find_Some. split; [done|]. split; [done|].
      intros j y Hj Hlt ->. by apply (Hfirst j). }
    rewrite Hfind. rewrite <- Htags in Hi. rewrite list_lookup_fmap in Hi.
    destruct (loaded_entries w !! i); [reflexivity|discriminate].
  - intros Hnot.
    assert (Hfind : list_find (λ x, x = t) (registered ops rs) = None).
    { apply list_find_None. apply Forall_forall. intros x Hx ->. done. }
    rewrite Hfind. reflexivity.
Qed.

Lemma FindTextureSlot_registration_order_witness :
  ∃ w, register_all two_textures two_textures_world = Some ([true; false; true], w)
       ∧ FindTextureSlot w "b" = Some 1
       ∧ FindTextureSlot w "c" = Some (-1).
Proof.
  destruct (register_all two_textures two_textures_world) as [[rs w]|] eqn:Hrun;
    [|vm_compute in Hrun; discriminate].
  assert (Hrs : rs = [true; false; true]).
  { vm_compute in Hrun. by injection Hrun as <- _. }
  subst rs. exists w. split; [done|].
  pose proof (FindTextureSlot_registration_order two_textures two_textures_world w
                [true; false; true] "b" eq_refl Hrun) as [Hb _].
  pose proof (FindTextureSlot_registration_order two_textures two_textures_world w
                [true; false; true] "c" eq_refl Hrun) as [_ Hc].
  split.
  - apply (Hb 1%nat); [reflexivity|]. intros [|j] Hj; [discriminate | lia].
  - apply Hc. cbn. intros H. repeat (apply elem_of_cons in H as [H|H]; [discriminate|]).
    by apply elem_of_nil in H.
Defined.

(** ** The counting loop over the loaded prefix *)
Section for_loaded_rule.
Variable body : Z → M unit.
Variable Inv : Z → World → Prop.
Hypothesis body_step : ∀ (i : Z) (w : World),
  Inv i w → 0 ≤ i < m_loadedTextures w →
  ∃ w', body i w = Some (tt, w') ∧ Inv (i + 1) w'
        ∧ m_loadedTextures w' = m_loadedTextures w.

Lemma for_loaded_rule (fuel : nat) :
  ∀ (i : Z) (w : World),
    0 ≤ i ≤ m_loadedTextures w →
    Inv i w →
    (Z.to_nat (m_loadedTextures w - i) ≤ fuel)%nat →
    ∃ w', for_loaded fuel body i w = Some (tt, w')
          ∧ Inv (m_loadedTextures w) w'
          ∧ m_loadedTextures w' = m_loadedTextures w.
Proof.
  induction fuel as [|fuel IH]; intros i w Hi HI Hfuel.
  - cbn. rewrite (proj2 (Z.ltb_ge _ _)) by lia.
    exists w. replace (m_loadedTextures w) with i by lia. done.
  - cbn. destruct (i <? m_loadedTextures w) eqn:Hlt.
    + apply Z.ltb_lt in Hlt. rewrite bind_run.
      destruct (body_step i w HI) as (w1 & -> & HI1 & Hn1); [lia|].
      destruct (IH (i + 1) w1) as (w2 & Hrun & HI2 & Hn2); [lia|done|lia|].
      exists w2. rewrite Hrun. rewrite <- Hn1. split; [done|]. split; [done|lia].
    + apply Z.ltb_ge in Hlt.
      exists w. replace (m_loadedTextures w) with i by lia. done.
Qed.
End for_loaded_rule.

Lemma BindGLTextures_run (w : World) :
  registry_ok w →
  ∃ calls, BindGLTextures w = Some (tt, with_gl_calls (gl_calls w ++ calls) w).
Proof.
  intros Hok. unfold BindGLTextures.
  pose (Inv := λ (_ : Z) (w' : World), ∃ calls, w' = with_gl_calls (gl_calls w ++ calls) w).
  assert (Hstep : ∀ (i : Z) (w1 : World),
    Inv i w1 → 0 ≤ i < m_loadedTextures w1 →
    ∃ w', BindGLTextures_body i w1 = Some (tt, w') ∧ Inv (i + 1) w'
          ∧ m_loadedTextures w' = m_loadedTextures w1).
  { intros i w1 (calls & ->) Hi. unfold BindGLTextures_body. run.
    destruct w as [ld dr cs sm n arr ms]; unfold registry_ok in Hok; cbn in *.
    unfold texture_at; cbn. rewrite bool_decide_eq_true_2 by lia.
    destruct (arr !! Z.to_nat i) as [e|] eqn:He.
    2:{ apply lookup_ge_None in He. lia. }
    eexists. split; [reflexivity|]. split; [|done].
    eexists. cbn. rewrite <- !app_assoc. reflexivity. }
  destruct (for_loaded_rule BindGLTextures_body Inv Hstep
              (Z.to_nat (m_loadedTextures w)) 0 w) as (w' & Hrun & (calls & ->) & _).
  - unfold registry_ok in Hok. lia.
  - exists []. rewrite app_nil_r. by destruct w.
  - lia.
  - exists calls. exact Hrun.
Qed.

Lemma LoadSceneTextures_run (w : World) :
  LoadSceneTextures w
  = match register_all scene_textures w with
    | Some (_, w') => BindGLTextures w'
    | None => None
    end.
Proof.
  unfold LoadSceneTextures, scene_textures. cbn [register_all].
  revert w.
  repeat (intros w; rewrite !bind_run;
          destruct (CreateGLTexture _ _ w) as [[? w']|]; [clear w; revert w'|reflexivity]).
  intros w. reflexivity.
Qed.

(** C6 (as amended): started on an empty 16-entry registry, every sequence
    of registrations whose decodable files number at most 16 is defined and
    ends with the count equal to the number of successful loads, at most 16,
    and with entry [i] carrying the tag of the [i]-th successful load; the
    fixed sequence of [LoadSceneTextures] is always such a sequence. Nothing
    is said about tags being unique. *)
Theorem registry_slots_follow_load_order (w0 : World) :
  m_loadedTextures w0 = 0 →
  length (m_textureIDs w0) = 16%nat →
  (∀ ops : list (string * string),
     (length (filter (λ op, loads w0 op.1 = true) ops) ≤ 16)%nat →
     ∃ rs w, register_all ops w0 = Some (rs, w) ∧ load_order ops rs w)
  ∧ (∃ rs w, LoadSceneTextures w0 = Some (tt, w)
             ∧ rs = (λ op, loads w0 op.1) <$> scene_textures
             ∧ load_order scene_textures rs w).
Proof.
  intros H0 H16.
  assert (Hok0 : registry_ok w0) by (unfold registry_ok; lia).
  assert (Hgen : ∀ ops : list (string * string),
     (length (filter (λ op, loads w0 op.1 = true) ops) ≤ 16)%nat →
     ∃ rs w, register_all ops w0 = Some (rs, w) ∧ load_order ops rs w
             ∧ registry_ok w ∧ rs = (λ op, loads w0 op.1) <$> ops).
  { intros ops Hfit.
    destruct (register_all_defined ops w0 Hok0) as [[rs w] Hrun]; [lia|].
    exists rs, w. split; [done|].
    destruct (register_all_sound ops w0 w rs Hok0 Hrun)
      as ((_&_&_&_&Hlen) & Hok & Hrs & Hn & Htags).
    unfold loaded_entries at 2 in Htags. rewrite H0 in Htags.
    change (Z.to_nat 0) with 0%nat in Htags. rewrite take_0 in Htags. cbn in Htags.
    unfold load_order, registry_ok in *. repeat split; try done; lia. }
  split.
  - intros ops Hfit. destruct (Hgen ops Hfit) as (rs & w & Hrun & Hord & _).
    by exists rs, w.
  - destruct (Hgen scene_textures) as (rs & w1 & Hrun & Hord & Hok1 & Hrs).
    { etransitivity; [apply length_filter|]. cbn. lia. }
    destruct (BindGLTextures_run w1 Hok1) as (calls & Hbind).
    exists rs, (with_gl_calls (gl_calls w1 ++ calls) w1).
    rewrite LoadSceneTextures_run, Hrun. split; [done|]. split; [done|].
    by destruct w1.
Qed.

Lemma registry_slots_follow_load_order_witness :
  ∃ rs w, LoadSceneTextures scene_world = Some (tt, w)
          ∧ rs = (λ op, loads scene_world op.1) <$> scene_textures
          ∧ load_order scene_textures rs w.
Proof.
  exact (proj2 (registry_slots_follow_load_order scene_world eq_refl eq_refl)).
Defined.

(** C6 as stated fails twice over. With every file decodable,
    [LoadSceneTextures] leaves the tag "island top" in slots 0 and 5, so
    tags are not unique keys; and a seventeenth successful registration is
    not refused but runs off the array. *)
Lemma registry_invariant_counterexample :
  (∃ w, LoadSceneTextures scene_world = Some (tt, w)
        ∧ m_loadedTextures w = 15
        ∧ tag <$> texture_at w 0 = Some "island top"%string
        ∧ tag <$> texture_at w 5 = Some "island top"%string)
  ∧ register_all (scene_textures ++ [("a.png", "a"); ("b.png", "b")]%string) scene_world
    = None.
Proof.
  split.
  - eexists. split; [vm_compute; reflexivity|]. vm_compute. done.
  - vm_compute. reflexivity.
Qed.

(** ** Teardown *)

Lemma DestroyGLTextures_body_step (w0 : World) (i : Z) (w : World) :
  registry_ok w0 →
  regenerated w0 i w → 0 ≤ i < m_loadedTextures w →
  ∃ w', DestroyGLTextures_body i w = Some (tt, w') ∧ regenerated w0 (i + 1) w'
        ∧ m_loadedTextures w' = m_loadedTextures w.
Proof.
  intros Hok (Hsame & Hn & names & Hlen & Hcalls & Hnew & Hold) Hi.
  unfold DestroyGLTextures_body, gen_texture. rewrite bind_run.
  set (name := gl_driver w (gl_calls w) `mod` 2 ^ 32).
  assert (Hname : 0 ≤ name < 2 ^ 32) by (apply Z.mod_pos_bound; lia).
  assert (Hlenw : length (m_textureIDs w) = length (m_textureIDs w0)) by apply Hsame.
  unfold registry_ok in Hok.
  rewrite store_texture_run by (destruct w; cbn in *; lia).
  eexists. split; [reflexivity|].
  destruct w as [ld dr cs sm n arr ms], Hsame as (?&?&?&?&?); cbn in *.
  split; [|done]. split; [repeat split; cbn; by rewrite ?length_alter|].
  split; [done|]. exists (names ++ [name]).
  split; [rewrite length_app; cbn; lia|].
  split; [rewrite Hcalls, fmap_app, app_assoc; done|]. split.
  - intros j nm Hj. cbn. destruct (decide (j < length names)%nat) as [Hlt|Hge].
    + rewrite lookup_app_l in Hj by done.
      rewrite list_lookup_alter_ne by lia. by apply Hnew.
    + rewrite lookup_app_r in Hj by lia.
      destruct (j - length names)%nat eqn:Hd; [|by destruct n0].
      cbn in Hj. injection Hj as <-. assert (j = Z.to_nat i) as -> by lia.
      split; [done|]. rewrite list_lookup_alter_eq. rewrite Hold by lia. done.
  - intros j Hj. cbn. rewrite list_lookup_alter_ne by lia. apply Hold. lia.
Qed.

Lemma DestroyGLTextures_run (w : World) :
  registry_ok w →
  ∃ w', DestroyGLTextures w = Some (tt, w')
        ∧ regenerated w (m_loadedTextures w) w'.
Proof.
  intros Hok. unfold DestroyGLTextures.
  destruct (for_loaded_rule DestroyGLTextures_body (regenerated w)
              (λ i w1, DestroyGLTextures_body_step w i w1 Hok)
              (Z.to_nat (m_loadedTextures w)) 0 w) as (w' & Hrun & Hinv & _).
  - unfold registry_ok in Hok. lia.
  - split; [apply same_surroundings_refl|]. split; [done|].
    exists []. cbn. rewrite app_nil_r. repeat split; try done.
  - lia.
  - exists w'. done.
Qed.

(** C7: on a registry within its array, [DestroyGLTextures] issues one
    generate call per loaded entry, in slot order, and no other OpenGL call
    (in particular no release); each loaded entry keeps its tag and has its
    ID overwritten with the generated name; the entries beyond the loaded
    prefix and the loaded-texture count are unchanged. *)
Theorem DestroyGLTextures_regenerates (w : World) :
  registry_ok w →
  ∃ (w' : World) (names : list Z),
    DestroyGLTextures w = Some (tt, w')
    ∧ m_loadedTextures w' = m_loadedTextures w
    ∧ length names = Z.to_nat (m_loadedTextures w)
    ∧ gl_calls w' = gl_calls w ++ (glGenTextures <$> names)
    ∧ (∀ name, glDeleteTextures name ∉ glGenTextures <$> names)
    ∧ (∀ (j : nat) (e : TEXTURE_INFO),
         loaded_entries w !! j = Some e →
         ∃ name, names !! j = Some name
                 ∧ m_textureIDs w' !! j = Some (mkTextureInfo name (tag e)))
    ∧ (∀ j : nat, (Z.to_nat (m_loadedTextures w) ≤ j)%nat →
         m_textureIDs w' !! j = m_textureIDs w !! j).
Proof.
  intros Hok.
  destruct (DestroyGLTextures_run w Hok)
    as (w' & Hrun & _ & Hn & names & Hlen & Hcalls & Hnew & Hold).
  exists w', names. repeat split; try done.
  - intros name (x & Hx & _)%list_elem_of_fmap. discriminate.
  - intros j e Hj. apply lookup_take_Some in Hj as [Hj Hlt].
    destruct (names !! j) as [name|] eqn:Hnm.
    2:{ apply lookup_ge_None in Hnm. lia. }
    exists name. split; [done|]. destruct (Hnew j name Hnm) as [_ ->].
    rewrite Hj. reflexivity.
Qed.

Lemma DestroyGLTextures_regenerates_witness :
  ∃ (w' : World) (names : list Z),
    DestroyGLTextures grey_image_world = Some (tt, w')
    ∧ m_loadedTextures w' = 2
    ∧ length names = 2%nat
    ∧ gl_calls w' = glGenTextures <$> names.
Proof.
  destruct (DestroyGLTextures_regenerates grey_image_world) as (w' & names & H).
  - unfold registry_ok. cbn. lia.
  - exists w', names. destruct H as (H1 & H2 & H3 & H4 & _). done.
Defined.

(** ** The uniform helpers *)

Lemma FindTextureSlot_loop_ext (w w' : World) (t : string) (fuel : nat) :
  m_loadedTextures w' = m_loadedTextures w →
  m_textureIDs w' = m_textureIDs w →
  ∀ (textureSlot index : Z) (bFound : bool),
    FindTextureSlot_loop fuel w' t textureSlot index bFound
    = FindTextureSlot_loop fuel w t textureSlot index bFound.
Proof.
  intros Hn Harr. induction fuel as [|fuel IH]; intros ts index b; cbn; rewrite Hn.
  - reflexivity.
  - unfold texture_at. rewrite Harr.
    destruct ((index <? m_loadedTextures w) && negb b); [|reflexivity].
    destruct (if bool_decide (0 ≤ index) then _ else _) as [e|]; [|reflexivity].
    cbn. rewrite !IH. reflexivity.
Qed.

Lemma FindTextureSlot_with_shader (p : option ShaderManager) (w : World) (t : string) :
  FindTextureSlot (with_shader p w) t = FindTextureSlot w t.
Proof. unfold FindTextureSlot. by rewrite FindTextureSlot_loop_ext with (w := w). Qed.

Lemma SetShaderColor_run (r g b a : float) (w : World) :
  SetShaderColor r g b a w =
  match m_pShaderManager w with
  | Some sm =>
      Some (tt, with_shader (Some (("objectColor"%string, UVec4 (glm.mkVec4 r g b a))
                                   :: ("bUseTexture"%string, UInt 0) :: sm)) w)
  | None => Some (tt, w)
  end.
Proof.
  unfold SetShaderColor. run.
  destruct w as [ld dr cs [sm|] n arr ms]; reflexivity.
Qed.

Lemma SetShaderTexture_run (t : string) (w : World) :
  SetShaderTexture t w =
  match m_pShaderManager w with
  | Some sm =>
      match FindTextureSlot w t with
      | Some slot =>
          Some (tt, with_shader (Some (("objectTexture"%string, USampler2D slot)
                                       :: ("bUseTexture"%string, UInt 1) :: sm)) w)
      | None => None
      end
  | None => Some (tt, w)
  end.
Proof.
  unfold SetShaderTexture. run.
  destruct (m_pShaderManager w) as [sm|] eqn:Hp; [|reflexivity].
  run. unfold setIntValue, push at 1. rewrite Hp. run.
  rewrite FindTextureSlot_with_shader.
  destruct (FindTextureSlot w t) as [slot|]; [|reflexivity].
  destruct w; reflexivity.
Qed.

Lemma SetTextureUVScale_run (u v : float) (w : World) :
  SetTextureUVScale u v w =
  match m_pShaderManager w with
  | Some sm => Some (tt, with_shader (Some (("UVscale"%string, UVec2 (glm.mkVec2 u v)) :: sm)) w)
  | None => Some (tt, w)
  end.
Proof.
  unfold SetTextureUVScale. run.
  destruct w as [ld dr cs [sm|] n arr ms]; reflexivity.
Qed.

Lemma uniforms_push (name : string) (v : uniform) (sm : ShaderManager) :
  uniforms ((name, v) :: sm) = <[name := v]> (uniforms sm).
Proof. reflexivity. Qed.

Lemma shade_run (c : shading_call) (w : World) (sm : ShaderManager) :
  m_pShaderManager w = Some sm → registry_ok w →
  ∃ sm', shade c w = Some (tt, with_shader (Some sm') w)
         ∧ samples_texture sm' = Some (is_texture_call c).
Proof.
  intros Hp Hok. destruct c as [r g b a|t]; cbn [shade is_texture_call].
  - rewrite SetShaderColor_run, Hp. eexists. split; [reflexivity|].
    unfold samples_texture. rewrite !uniforms_push.
    rewrite lookup_insert_ne by done. rewrite lookup_insert_eq. reflexivity.
  - rewrite SetShaderTexture_run, Hp, FindTextureSlot_scan by done.
    eexists. split; [reflexivity|].
    unfold samples_texture. rewrite !uniforms_push.
    rewrite lookup_insert_ne by done. rewrite lookup_insert_eq. reflexivity.
Qed.

Lemma shade_all_run (cs : list shading_call) :
  ∀ (w : World) (sm : ShaderManager),
    m_pShaderManager w = Some sm → registry_ok w →
    ∃ sm', shade_all cs w = Some (tt, with_shader (Some sm') w).
Proof.
  induction cs as [|c cs IH]; intros w sm Hp Hok.
  - exists sm. cbn. rewrite <- Hp. by destruct w.
  - cbn [shade_all]. rewrite bind_run.
    destruct (shade_run c w sm Hp Hok) as (sm1 & -> & _).
    destruct (IH (with_shader (Some sm1) w) sm1) as (sm2 & ->);
      [by destruct w | by destruct w |].
    exists sm2. by destruct w.
Qed.

Lemma shade_all_app (cs1 cs2 : list shading_call) (w : World) :
  shade_all (cs1 ++ cs2) w
  = match shade_all cs1 w with
    | Some (_, w') => shade_all cs2 w'
    | None => None
    end.
Proof.
  revert w. induction cs1 as [|c cs1 IH]; intros w; [reflexivity|].
  cbn [shade_all app]. rewrite !bind_run.
  destruct (shade c w) as [[[] w1]|]; [apply IH | reflexivity].
Qed.

(** C5: with a sink attached and the registry within its array,
    [SetShaderColor] leaves the flag [bUseTexture] at 0 (false) and
    [objectColor] at the given colour; [SetShaderTexture] leaves the flag at
    1 (true) and [objectTexture] at the slot [FindTextureSlot] returns; and
    after any sequence of the two calls the flag read at the next draw is
    the one set by the last call of the sequence. *)
Theorem last_shading_call_decides (w : World) (sm : ShaderManager) :
  m_pShaderManager w = Some sm →
  registry_ok w →
  (∀ r g b a : float,
     ∃ sm', SetShaderColor r g b a w = Some (tt, with_shader (Some sm') w)
            ∧ uniforms sm' !! "bUseTexture"%string = Some (UInt 0)
            ∧ uniforms sm' !! "objectColor"%string = Some (UVec4 (glm.mkVec4 r g b a))
            ∧ samples_texture sm' = Some false)
  ∧ (∀ t : string,
       ∃ sm' slot, SetShaderTexture t w = Some (tt, with_shader (Some sm') w)
                   ∧ FindTextureSlot w t = Some slot
                   ∧ uniforms sm' !! "bUseTexture"%string = Some (UInt 1)
                   ∧ uniforms sm' !! "objectTexture"%string = Some (USampler2D slot)
                   ∧ samples_texture sm' = Some true)
  ∧ (∀ (cs : list shading_call) (c : shading_call),
       ∃ sm', shade_all (cs ++ [c]) w = Some (tt, with_shader (Some sm') w)
              ∧ samples_texture sm' = Some (is_texture_call c)).
Proof.
  intros Hp Hok. split; [|split].
  - intros r g b a. rewrite SetShaderColor_run, Hp. eexists. split; [reflexivity|].
    unfold samples_texture. rewrite !uniforms_push.
    rewrite lookup_insert_eq. rewrite lookup_insert_ne by done.
    rewrite lookup_insert_eq. done.
  - intros t. rewrite SetShaderTexture_run, Hp, FindTextureSlot_scan by done.
    eexists _, _. split; [reflexivity|]. split; [reflexivity|].
    unfold samples_texture. rewrite !uniforms_push.
    rewrite lookup_insert_eq. rewrite lookup_insert_ne by done.
    rewrite lookup_insert_eq. done.
  - intros cs c. rewrite shade_all_app.
    destruct (shade_all_run cs w sm Hp Hok) as (sm1 & ->).
    cbn [shade_all]. rewrite bind_run.
    destruct (shade_run c (with_shader (Some sm1) w) sm1) as (sm2 & -> & Hflag);
      [by destruct w | by destruct w |].
    exists sm2. split; [by destruct w | done].
Qed.

Lemma last_shading_call_decides_witness :
  ∃ sm', shade_all ([TextureCall "floor"; ColorCall 1 0 0 1] ++ [TextureCall "steel"])
           scene_world
         = Some (tt, with_shader (Some sm') scene_world)
         ∧ samples_texture sm' = Some true.
Proof.
  apply (proj2 (proj2 (last_shading_call_decides scene_world [] eq_refl
                         ltac:(unfold registry_ok; cbn; lia)))
           [TextureCall "floor"; ColorCall 1 0 0 1] (TextureCall "steel")).
Defined.

(** C9: with a null [m_pShaderManager], [SetTransformations],
    [SetShaderColor], [SetShaderTexture] and [SetTextureUVScale] return
    normally for every argument and leave the whole state as it was: nothing
    is pushed. *)
Theorem null_sink_pushes_nothing (w : World) :
  m_pShaderManager w = None →
  (∀ (s : glm.vec3) (rx ry rz : float) (t : glm.vec3),
     SetTransformations s rx ry rz t w = Some (tt, w))
  ∧ (∀ r g b a : float, SetShaderColor r g b a w = Some (tt, w))
  ∧ (∀ t : string, SetShaderTexture t w = Some (tt, w))
  ∧ (∀ u v : float, SetTextureUVScale u v w = Some (tt, w)).
Proof.
  intros Hp. repeat split; intros.
  - by rewrite SetTransformations_run, Hp.
  - by rewrite SetShaderColor_run, Hp.
  - by rewrite SetShaderTexture_run, Hp.
  - by rewrite SetTextureUVScale_run, Hp.
Qed.

Lemma null_sink_pushes_nothing_witness :
  SetShaderTexture "a" high_id_world = Some (tt, high_id_world).
Proof.
  apply (proj1 (proj2 (proj2 (null_sink_pushes_nothing high_id_world eq_refl)))).
Defined.

(** ** Materials *)

Lemma not_in_tags (t : string) (l : list string) :
  forallb (λ x, negb (String.eqb x t)) l = true → t ∉ l.
Proof.
  intros H Hin. apply list_elem_of_In in Hin.
  rewrite forallb_forall in H. specialize (H t Hin).
  by rewrite String.eqb_refl in H.
Qed.

(** The scan of [FindMaterial] always comes to an end, and on a registry
    that is not empty the function returns [true] whether or not the scan
    met the tag. *)
Lemma FindMaterial_loop_defined (ms : list OBJECT_MATERIAL) (t : string) (fuel : nat) :
  ∀ (material : OBJECT_MATERIAL) (index : Z) (bFound : bool),
    0 ≤ index →
    (bFound = false → (Z.to_nat (Z.of_nat (length ms) - index) ≤ fuel)%nat) →
    is_Some (FindMaterial_loop fuel ms t material index bFound).
Proof.
  induction fuel as [|fuel IH]; intros material index b Hi Hfuel; cbn.
  - destruct b; [rewrite andb_false_r; by eexists|].
    rewrite (proj2 (Z.ltb_ge _ _)) by (specialize (Hfuel eq_refl); lia). by eexists.
  - destruct (index <? Z.of_nat (length ms)) eqn:Hlt; [|by eexists].
    destruct b; cbn; [by eexists|]. apply Z.ltb_lt in Hlt. specialize (Hfuel eq_refl).
    destruct (ms !! Z.to_nat index) as [m|] eqn:Hm.
    2:{ apply lookup_ge_None in Hm. lia. }
    cbn. destruct (mtag_matches m t); apply IH; (done || lia).
Qed.

Lemma FindMaterial_nonempty_reports_found (w : World) (t : string)
    (material : OBJECT_MATERIAL) :
  m_objectMaterials w ≠ [] →
  ∃ material', FindMaterial w t material = Some (true, material').
Proof.
  intros Hne. unfold FindMaterial.
  destruct (m_objectMaterials w) as [|m ms] eqn:Hms; [done|].
  destruct (FindMaterial_loop_defined (m :: ms) t (length (m :: ms)) material 0 false)
    as [[b material'] Hloop]; [lia | by rewrite Z.sub_0_r, Nat2Z.id |].
  change (Z.of_nat (length (m :: ms)) =? 0) with false. cbv iota.
  rewrite Hloop. by exists material'.
Qed.

(** C2 (as amended): on an empty material registry [FindMaterial] reports
    not-found without touching its out-parameter and [SetShaderMaterial]
    leaves the whole state as it was; [SetShaderTexture] with a tag no
    loaded entry carries sets [bUseTexture] to 1 and [objectTexture] to the
    sentinel -1 and leaves every other uniform as it was. *)
Theorem lookup_miss_behaviour (w : World) (t : string) :
  registry_ok w →
  (m_objectMaterials w = [] →
     (∀ material, FindMaterial w t material = Some (false, material))
     ∧ SetShaderMaterial t w = Some (tt, w))
  ∧ (∀ sm : ShaderManager,
       m_pShaderManager w = Some sm →
       t ∉ (tag <$> loaded_entries w) →
       ∃ sm', SetShaderTexture t w = Some (tt, with_shader (Some sm') w)
              ∧ uniforms sm' !! "bUseTexture"%string = Some (UInt 1)
              ∧ uniforms sm' !! "objectTexture"%string = Some (USampler2D (-1))
              ∧ ∀ name : string,
                  name ≠ "bUseTexture"%string → name ≠ "objectTexture"%string →
                  uniforms sm' !! name = uniforms sm !! name).
Proof.
  intros Hok. split.
  - intros Hms. split.
    + intros material. unfold FindMaterial. rewrite Hms. reflexivity.
    + unfold SetShaderMaterial. run. rewrite Hms. reflexivity.
  - intros sm Hp Hnot.
    assert (Hfind : list_find (λ e, tag e = t) (loaded_entries w) = None).
    { apply list_find_None, Forall_forall. intros e He Ht. apply Hnot.
      apply list_elem_of_fmap. by exists e. }
    rewrite SetShaderTexture_run, Hp, FindTextureSlot_scan, Hfind by done.
    eexists. split; [reflexivity|]. rewrite !uniforms_push.
    split; [by rewrite lookup_insert_ne, lookup_insert_eq|].
    split; [by rewrite lookup_insert_eq|].
    intros name H1 H2. by rewrite !lookup_insert_ne.
Qed.

Lemma lookup_miss_behaviour_witness :
  ∃ sm', SetShaderTexture "gold" miss_world = Some (tt, with_shader (Some sm') miss_world)
         ∧ uniforms sm' !! "bUseTexture"%string = Some (UInt 1)
         ∧ uniforms sm' !! "objectTexture"%string = Some (USampler2D (-1))
         ∧ ∀ name : string,
             name ≠ "bUseTexture"%string → name ≠ "objectTexture"%string →
             uniforms sm' !! name = uniforms [("bUseTexture"%string, UInt 0)] !! name.
Proof.
  apply (proj2 (lookup_miss_behaviour miss_world "gold"
                  ltac:(unfold registry_ok; cbn; lia))
           [("bUseTexture"%string, UInt 0)] eq_refl).
  apply not_in_tags. reflexivity.
Defined.

(** C2 as stated fails. In [miss_world] the material registry holds only
    "metal" and no texture is loaded. [FindMaterial] for "gold" reports
    found; [SetShaderTexture] for "gold" flips the uniform [bUseTexture]
    from 0 to 1; and [SetShaderMaterial] for "gold" pushes five values. *)
Lemma lookup_miss_counterexample :
  ((("gold" : string) ∉ (mtag <$> m_objectMaterials miss_world))
   ∧ FindMaterial miss_world "gold" default_material = Some (true, default_material))
  ∧ ((("gold" : string) ∉ (tag <$> loaded_entries miss_world))
     ∧ uniform_of miss_world "bUseTexture" = Some (UInt 0)
     ∧ ∃ w', SetShaderTexture "gold" miss_world = Some (tt, w')
             ∧ uniform_of w' "bUseTexture" = Some (UInt 1))
  ∧ (∃ w', SetShaderMaterial "gold" miss_world = Some (tt, w')
           ∧ (length <$> m_pShaderManager w') = Some 6%nat
           ∧ (length <$> m_pShaderManager miss_world) = Some 1%nat).
Proof.
  split; [|split].
  - split; [apply not_in_tags; reflexivity | reflexivity].
  - split; [apply not_in_tags; reflexivity|]. split; [reflexivity|].
    eexists. split; [vm_compute; reflexivity|]. reflexivity.
  - eexists. split; [vm_compute; reflexivity|]. split; reflexivity.
Qed.

(** C8: [DefineObjectMaterials] appends seven entries. The third, "glass",
    carries the shininess 85 of its own definition; the fourth, "ceramic",
    has no shininess assigned, the assignment written among its fields
    having gone to the local glass record after that record was copied into
    the registry; every other appended entry has its shininess assigned. *)
Theorem DefineObjectMaterials_ceramic_shininess (w : World) :
  ∃ (w' : World) (metal wood glass ceramic walling leather paper : OBJECT_MATERIAL),
    DefineObjectMaterials w = Some (tt, w')
    ∧ m_objectMaterials w'
      = m_objectMaterials w ++ [metal; wood; glass; ceramic; walling; leather; paper]
    ∧ mtag <$> [metal; wood; glass; ceramic; walling; leather; paper]
      = ["metal"; "wood"; "glass"; "ceramic"; "walling"; "leather"; "parchment"]%string
    ∧ shininess ceramic = None
    ∧ shininess glass = Some 85%R
    ∧ Forall (λ m, is_Some (shininess m)) [metal; wood; glass; walling; leather; paper].
Proof.
  destruct w as [ld dr cs sm n arr ms].
  eexists _, _, _, _, _, _, _, _. split.
  - unfold DefineObjectMaterials, push_back. run. reflexivity.
  - cbn [m_objectMaterials with_objectMaterials].
    split; [rewrite <- !app_assoc; reflexivity|].
    split; [reflexivity|]. split; [reflexivity|].
    split; [cbn; f_equal; lra|].
    repeat constructor; by eexists.
Qed.

(** * Further properties *)

(** ** Registration and lookup *)

Lemma registered_length (ops : list (string * string)) (rs : list bool) :
  (length (registered ops rs) ≤ length ops)%nat.
Proof.
  revert rs. induction ops as [|[f t] ops IH]; intros [|[] rs]; cbn; try lia.
  - specialize (IH rs). lia.
  - specialize (IH rs). lia.
Qed.

Lemma registered_elem (w : World) (ops : list (string * string)) (t : string) :
  t ∈ registered ops ((λ op, loads w op.1) <$> ops)
  ↔ ∃ f, (f, t) ∈ ops ∧ loads w f = true.
Proof.
  induction ops as [|[f t'] ops IH]; cbn.
  - split; [by intros ?%elem_of_nil | by intros (f & ?%elem_of_nil & _)].
  - destruct (loads w f) eqn:Hl.
    + rewrite elem_of_cons, IH. split.
      * intros [->|(f' & Hin & Hl')]; [exists f | exists f']; split; try done;
          [apply elem_of_cons; by left | apply elem_of_cons; by right].
      * intros (f' & [Heq|Hin]%elem_of_cons & Hl'); [left; congruence | right; by exists f'].
    + rewrite IH. split.
      * intros (f' & Hin & Hl'). exists f'. split; [apply elem_of_cons; by right | done].
      * intros (f' & [Heq|Hin]%elem_of_cons & Hl'); [congruence | by exists f'].
Qed.

(** The slot lookup depends on the tags of the loaded entries only. *)
Lemma FindTextureSlot_tags (w : World) (t : string) :
  registry_ok w →
  FindTextureSlot w t
  = Some match list_find (λ x, x = t) (tag <$> loaded_entries w) with
         | Some (k, _) => Z.of_nat k
         | None => -1
         end.
Proof.
  intros Hok. rewrite FindTextureSlot_scan by done.
  rewrite (list_find_fmap tag (λ x, x = t)).
  destruct (list_find _ _) as [[k e]|]; reflexivity.
Qed.

Lemma list_find_snoc_found {A} (P : A → Prop) `{∀ x, Decision (P x)}
    (l : list A) (x : A) :
  (∃ y, y ∈ l ∧ P y) → list_find P (l ++ [x]) = list_find P l.
Proof.
  intros (y & Hy & HP).
  destruct (list_find_elem_of P l y Hy HP) as [[i z] Hfind].
  rewrite Hfind. by apply list_find_app_l.
Qed.


(** Running [CreateGLTexture] on a file that loads, with room in the
    array. *)
Lemma CreateGLTexture_appends (filename t : string) (w : World) :
  registry_ok w →
  loads w filename = true →
  m_loadedTextures w < Z.of_nat (length (m_textureIDs w)) →
  ∃ w' name,
    CreateGLTexture filename t w = Some (true, w')
    ∧ registry_ok w'
    ∧ m_loadedTextures w' = m_loadedTextures w + 1
    ∧ loaded_entries w' = loaded_entries w ++ [mkTextureInfo name t].
Proof.
  intros Hok Hl Hroom. pose proof (CreateGLTexture_step filename t w Hok) as Hstep.
  destruct (CreateGLTexture filename t w) as [[r w']|]; [|lia].
  destruct Hstep as (Hr & _ & Hok' & Hreg). rewrite Hl in Hr. subst r.
  destruct Hreg as (Hn & name & Hent). by exists w', name.
Qed.

(** X1: a decodable image with 3 or 4 channels, met with room in the array,
    is registered: the call returns [true], issues the generate, bind, four
    parameter, upload (RGB8 for 3 channels, RGBA8 for 4), mipmap and unbind
    calls in that order, writes the generated name and the tag at index
    [m_loadedTextures] and raises the count by one. *)
Theorem CreateGLTexture_registers (filename t : string) (w : World) (img : Image) :
  stbi_load w filename = Some img →
  colorChannels img = 3 ∨ colorChannels img = 4 →
  0 ≤ m_loadedTextures w < Z.of_nat (length (m_textureIDs w)) →
  CreateGLTexture filename t w
  = let name := gl_driver w (gl_calls w) `mod` 2 ^ 32 in
    Some (true,
          with_loadedTextures (m_loadedTextures w + 1)
            (with_textureIDs
               (<[Z.to_nat (m_loadedTextures w) := mkTextureInfo name t]> (m_textureIDs w))
               (with_gl_calls
                  (gl_calls w ++
                   [ glGenTextures name; glBindTexture name;
                     glTexParameteri GL_TEXTURE_WRAP_S GL_REPEAT;
                     glTexParameteri GL_TEXTURE_WRAP_T GL_REPEAT;
                     glTexParameteri GL_TEXTURE_MIN_FILTER GL_LINEAR;
                     glTexParameteri GL_TEXTURE_MAG_FILTER GL_LINEAR;
                     glTexImage2D (if colorChannels img =? 3 then GL_RGB8 else GL_RGBA8)
                                  (width img) (height img);
                     glGenerateMipmap; glBindTexture 0 ]) w))).
Proof.
  destruct w as [ld dr calls sm n arr ms]. cbn [stbi_load m_loadedTextures m_textureIDs].
  intros Himg Hch Hn. unfold CreateGLTexture. run. cbn.
  rewrite Himg. unfold gen_texture. run. cbn.
  destruct Hch as [H3|H4]; rewrite ?H3, ?H4; cbn.
  all: run; cbn; rewrite register_texture_run by (cbn; lia); cbn.
  all: rewrite <- !app_assoc; reflexivity.
Qed.

Lemma CreateGLTexture_registers_witness :
  ∃ w', CreateGLTexture "c.png" "c" ab_world = Some (true, w')
        ∧ m_loadedTextures w' = 3
        ∧ texture_at w' 2 = Some (mkTextureInfo 10 "c")
        ∧ gl_calls w'
          = [ glGenTextures 10; glBindTexture 10;
              glTexParameteri GL_TEXTURE_WRAP_S GL_REPEAT;
              glTexParameteri GL_TEXTURE_WRAP_T GL_REPEAT;
              glTexParameteri GL_TEXTURE_MIN_FILTER GL_LINEAR;
              glTexParameteri GL_TEXTURE_MAG_FILTER GL_LINEAR;
              glTexImage2D GL_RGBA8 8 8; glGenerateMipmap; glBindTexture 0 ].
Proof.
  eexists. split.
  - apply (CreateGLTexture_registers "c.png" "c" ab_world (mkImage 8 8 4) eq_refl).
    + right. reflexivity.
    + cbn. lia.
  - repeat split.
Defined.

(** X2: the capacity of the array is not checked. On a registry within its
    array, [CreateGLTexture] is undefined exactly when the file loads and
    the count has reached the length of the array (the entry is then
    written past the end); in every other case it returns, and its result
    tells whether the file loaded. *)
Theorem CreateGLTexture_defined_iff (filename t : string) (w : World) :
  registry_ok w →
  (CreateGLTexture filename t w = None
   ↔ loads w filename = true
     ∧ m_loadedTextures w = Z.of_nat (length (m_textureIDs w)))
  ∧ ∀ r w', CreateGLTexture filename t w = Some (r, w') → r = loads w filename.
Proof.
  intros Hok. pose proof (CreateGLTexture_step filename t w Hok) as Hstep.
  destruct (CreateGLTexture filename t w) as [[r w']|] eqn:Hrun.
  - destruct Hstep as (Hr & _ & Hok' & Hreg). split.
    + split; [discriminate|]. intros [Hl Hfull].
      rewrite CreateGLTexture_overflow in Hrun by (done || lia). discriminate.
    + intros r0 w0 [= <- <-]. done.
  - split; [by split | intros r0 w0 [=]].
Qed.

Lemma CreateGLTexture_defined_iff_witness :
  CreateGLTexture "c.png" "c" full_world = None.
Proof.
  apply (proj1 (CreateGLTexture_defined_iff "c.png" "c" full_world
                  ltac:(unfold registry_ok; cbn; lia))).
  split; reflexivity.
Defined.

(** X3: an image that decodes with a channel count other than 3 and 4 leaves
    a texture behind. The call returns [false] after the generate, bind and
    four parameter calls: the generated name is neither stored in the
    registry nor released, and it is still the bound texture. *)
Theorem CreateGLTexture_unsupported_leaves_texture (filename t : string) (w : World)
    (img : Image) :
  stbi_load w filename = Some img →
  colorChannels img ≠ 3 → colorChannels img ≠ 4 →
  CreateGLTexture filename t w
  = let name := gl_driver w (gl_calls w) `mod` 2 ^ 32 in
    Some (false,
          with_gl_calls
            (gl_calls w ++
             [ glGenTextures name; glBindTexture name;
               glTexParameteri GL_TEXTURE_WRAP_S GL_REPEAT;
               glTexParameteri GL_TEXTURE_WRAP_T GL_REPEAT;
               glTexParameteri GL_TEXTURE_MIN_FILTER GL_LINEAR;
               glTexParameteri GL_TEXTURE_MAG_FILTER GL_LINEAR ]) w).
Proof.
  destruct w as [ld dr calls sm n arr ms]. cbn [stbi_load].
  intros Himg H3%Z.eqb_neq H4%Z.eqb_neq. unfold CreateGLTexture. run. cbn.
  rewrite Himg. unfold gen_texture. run. cbn. rewrite H3, H4. run.
  rewrite <- !app_assoc. reflexivity.
Qed.

Lemma CreateGLTexture_unsupported_leaves_texture_witness :
  ∃ w', CreateGLTexture "grey.png" "g" grey_image_world = Some (false, w')
        ∧ last (gl_calls w') = Some (glTexParameteri GL_TEXTURE_MAG_FILTER GL_LINEAR)
        ∧ gl_calls w' !! 1%nat = Some (glBindTexture 7).
Proof.
  eexists. split.
  - apply (CreateGLTexture_unsupported_leaves_texture "grey.png" "g" grey_image_world
             (mkImage 8 8 1) eq_refl); cbn; lia.
  - split; reflexivity.
Defined.



(** X5: registering a tag a loaded entry already carries takes a slot that
    no lookup reaches: the count rises by one, and for every tag, the new
    one included, both lookups return what they returned before. *)
Theorem reregistered_tag_is_shadowed (filename t : string) (w : World) :
  registry_ok w →
  loads w filename = true →
  m_loadedTextures w < Z.of_nat (length (m_textureIDs w)) →
  t ∈ (tag <$> loaded_entries w) →
  ∃ w',
    CreateGLTexture filename t w = Some (true, w')
    ∧ m_loadedTextures w' = m_loadedTextures w + 1
    ∧ (tag <$> texture_at w' (m_loadedTextures w)) = Some t
    ∧ ∀ t', FindTextureSlot w' t' = FindTextureSlot w t'
            ∧ FindTextureID w' t' = FindTextureID w t'.
Proof.
  intros Hok Hl Hroom Hin.
  destruct (CreateGLTexture_appends filename t w Hok Hl Hroom)
    as (w' & name & Hrun & Hok' & Hn & Hent).
  assert (Hlen : length (loaded_entries w) = Z.to_nat (m_loadedTextures w))
    by by apply loaded_entries_length.
  apply list_elem_of_fmap in Hin as (y & Hy & Hyin).
  exists w'. split; [done|]. split; [done|]. unfold registry_ok in Hok. split.
  { rewrite texture_at_loaded by lia. rewrite Hent, lookup_app_r by lia.
    by rewrite Hlen, Nat.sub_diag. }
  intros t'. rewrite !FindTextureSlot_scan, !FindTextureID_scan, Hent by done.
  destruct (list_find (λ e, tag e = t') (loaded_entries w)) as [[k e]|] eqn:Hfind.
  - rewrite (list_find_app_l _ _ _ _ _ Hfind). done.
  - rewrite list_find_app_r by done. cbn.
    destruct (decide (t = t')) as [<-|Hne]; [|done].
    apply list_find_None in Hfind. rewrite Forall_forall in Hfind.
    exfalso. by apply (Hfind y).
Qed.

Lemma reregistered_tag_is_shadowed_witness :
  ∃ w', CreateGLTexture "a2.png" "a" ab_world = Some (true, w')
        ∧ m_loadedTextures w' = 3
        ∧ FindTextureSlot w' "a" = Some 0.
Proof.
  destruct (reregistered_tag_is_shadowed "a2.png" "a" ab_world)
    as (w' & Hrun & Hn & _ & Hsame).
  - unfold registry_ok. cbn. lia.
  - reflexivity.
  - cbn. lia.
  - apply list_elem_of_In. cbn. by left.
  - exists w'. split; [done|]. split; [done|].
    destruct (Hsame "a"%string) as [-> _]. reflexivity.
Defined.

(** X6: on a registry within its array [FindTextureSlot] returns -1 exactly
    when no loaded entry carries the tag; any other result is the index of
    a loaded entry that carries the tag and before which no entry does. *)
Theorem FindTextureSlot_first_match (w : World) (t : string) :
  registry_ok w →
  ∃ slot,
    FindTextureSlot w t = Some slot
    ∧ (slot = -1 ↔ t ∉ (tag <$> loaded_entries w))
    ∧ (slot ≠ -1 →
       0 ≤ slot < m_loadedTextures w
       ∧ (tag <$> texture_at w slot) = Some t
       ∧ ∀ j, 0 ≤ j < slot → (tag <$> texture_at w j) ≠ Some t).
Proof.
  intros Hok. rewrite FindTextureSlot_scan by done.
  pose proof (loaded_entries_length w Hok) as Hlen.
  destruct (list_find (λ e, tag e = t) (loaded_entries w)) as [[k e]|] eqn:Hfind.
  - apply list_find_Some in Hfind as (Hk & Ht & Hfirst).
    pose proof (lookup_lt_Some _ _ _ Hk) as Hlt.
    exists (Z.of_nat k). split; [done|]. split.
    + split; [lia|]. intros Hnot. exfalso. apply Hnot, list_elem_of_fmap.
      exists e. split; [done|]. by eapply list_elem_of_lookup_2.
    + intros _. split; [lia|]. split.
      * rewrite texture_at_loaded by lia. rewrite Nat2Z.id, Hk. cbn. by f_equal.
      * intros j Hj. rewrite texture_at_loaded by lia.
        destruct (loaded_entries w !! Z.to_nat j) as [e'|] eqn:He'; [|done].
        cbn. intros [= Ht']. apply (Hfirst (Z.to_nat j) e'); [done | lia | done].
  - exists (-1). split; [done|]. split; [|done]. split; [|done].
    intros _ (e & Ht & He)%list_elem_of_fmap.
    apply list_find_None in Hfind. rewrite Forall_forall in Hfind.
    by apply (Hfind e).
Qed.

Lemma FindTextureSlot_first_match_witness :
  ∃ slot, FindTextureSlot duplicate_world "a" = Some slot
          ∧ (slot ≠ -1 → 0 ≤ slot < 3
             ∧ (tag <$> texture_at duplicate_world slot) = Some "a"%string
             ∧ ∀ j, 0 ≤ j < slot → (tag <$> texture_at duplicate_world j) ≠ Some "a"%string).
Proof.
  destruct (FindTextureSlot_first_match duplicate_world "a") as (slot & Hs & _ & Hfound).
  - unfold registry_ok. cbn. lia.
  - exists slot. split; [exact Hs | exact Hfound].
Defined.

(** X7: a slot whose tag already sits in an earlier loaded slot is returned
    by [FindTextureSlot] for no tag at all. *)
Theorem duplicate_slot_unreachable (w : World) (i j : Z) (t0 : string) :
  registry_ok w →
  0 ≤ i < j → j < m_loadedTextures w →
  (tag <$> texture_at w i) = Some t0 →
  (tag <$> texture_at w j) = Some t0 →
  ∀ t, FindTextureSlot w t ≠ Some j.
Proof.
  intros Hok Hij Hj Hti Htj t. rewrite FindTextureSlot_scan by done.
  rewrite !texture_at_loaded in * by lia.
  destruct (list_find (λ e, tag e = t) (loaded_entries w)) as [[k e]|] eqn:Hfind;
    [|intros [=]; lia].
  intros [= Hk]. apply list_find_Some in Hfind as (Hke & Ht & Hfirst).
  assert (k = Z.to_nat j) as -> by lia. rewrite Hke in Htj. cbn in Htj.
  destruct (loaded_entries w !! Z.to_nat i) as [e'|] eqn:He'; [|done].
  cbn in Hti. apply (Hfirst (Z.to_nat i) e'); [done | lia | congruence].
Qed.

Lemma duplicate_slot_unreachable_witness :
  bool_decide (FindTextureSlot duplicate_world "a" = Some 2) = false.
Proof.
  apply bool_decide_eq_false_2.
  apply (duplicate_slot_unreachable duplicate_world 0 2 "a").
  - unfold registry_ok. cbn. lia.
  - lia.
  - cbn. lia.
  - reflexivity.
  - reflexivity.
Defined.

Lemma bind_calls_app (i : Z) (l1 l2 : list TEXTURE_INFO) :
  bind_calls i (l1 ++ l2) = bind_calls i l1 ++ bind_calls (i + Z.of_nat (length l1)) l2.
Proof.
  revert i. induction l1 as [|e l1 IH]; intros i; cbn [bind_calls app length].
  - by rewrite Z.add_0_r.
  - rewrite IH. cbn [app]. do 3 f_equal. f_equal. lia.
Qed.

(** X8: [BindGLTextures] binds loaded entry [i] to texture unit [i], for
    [i] from 0 up: on a registry within its array it issues, for each loaded
    entry in slot order, an activate call for the unit and a bind call for
    the entry's ID, and changes nothing else. *)
Theorem BindGLTextures_binds_slot_to_unit (w : World) :
  registry_ok w →
  BindGLTextures w
  = Some (tt, with_gl_calls (gl_calls w ++ bind_calls 0 (loaded_entries w)) w).
Proof.
  intros Hok. unfold BindGLTextures.
  pose (Inv := λ (i : Z) (w' : World),
          w' = with_gl_calls
                 (gl_calls w ++ bind_calls 0 (take (Z.to_nat i) (loaded_entries w))) w).
  pose proof (loaded_entries_length w Hok) as Hlen.
  assert (Hstep : ∀ (i : Z) (w1 : World),
    Inv i w1 → 0 ≤ i < m_loadedTextures w1 →
    ∃ w', BindGLTextures_body i w1 = Some (tt, w') ∧ Inv (i + 1) w'
          ∧ m_loadedTextures w' = m_loadedTextures w1).
  { intros i w1 HI Hi. unfold Inv in HI. subst w1. unfold BindGLTextures_body. run.
    change (texture_at _ i) with (texture_at w i).
    change (0 ≤ i < m_loadedTextures w) in Hi.
    rewrite texture_at_loaded by done.
    destruct (loaded_entries w !! Z.to_nat i) as [e|] eqn:He.
    2:{ apply lookup_ge_None in He. lia. }
    eexists. split; [reflexivity|]. split; [|done]. unfold Inv.
    replace (Z.to_nat (i + 1)) with (S (Z.to_nat i)) by lia.
    rewrite (take_S_r _ _ _ He), bind_calls_app.
    rewrite length_take, Hlen, Nat.min_l by lia.
    rewrite Z2Nat.id by lia. cbn [bind_calls]. rewrite Z.add_0_l.
    unfold with_gl_calls; cbn. rewrite <- !app_assoc. reflexivity. }
  destruct (for_loaded_rule BindGLTextures_body Inv Hstep
              (Z.to_nat (m_loadedTextures w)) 0 w) as (w' & Hrun & HI & _).
  - unfold registry_ok in Hok. lia.
  - unfold Inv. cbn. rewrite app_nil_r. by destruct w.
  - lia.
  - rewrite Hrun, HI. rewrite firstn_all2 by lia. reflexivity.
Qed.

Lemma BindGLTextures_binds_slot_to_unit_witness :
  gl_calls <$> (snd <$> BindGLTextures ab_world)
  = Some [glActiveTexture 0; glBindTexture 3; glActiveTexture 1; glBindTexture 4].
Proof.
  rewrite (BindGLTextures_binds_slot_to_unit ab_world)
    by (unfold registry_ok; cbn; lia).
  reflexivity.
Defined.

(** X9: teardown does not empty the registry. On a registry within its
    array [DestroyGLTextures] leaves a registry within its array in which
    every tag resolves to the slot it resolved to before, and in which
    [FindTextureID] returns for a loaded tag a name generated by the
    teardown itself. *)
Theorem DestroyGLTextures_keeps_slots (w : World) :
  registry_ok w →
  ∃ w', DestroyGLTextures w = Some (tt, w')
        ∧ registry_ok w'
        ∧ ∀ t, FindTextureSlot w' t = FindTextureSlot w t
               ∧ ∀ slot, FindTextureSlot w t = Some slot → slot ≠ -1 →
                   ∃ name, glGenTextures name ∈ drop (length (gl_calls w)) (gl_calls w')
                           ∧ FindTextureID w' t = Some (int_of_GLuint name).
Proof.
  intros Hok.
  destruct (DestroyGLTextures_run w Hok)
    as (w' & Hrun & Hsame & Hn & names & Hlen & Hcalls & Hnew & Hold).
  assert (Hok' : registry_ok w').
  { unfold registry_ok in *. destruct Hsame as (_&_&_&_&Hl). rewrite Hn, Hl. done. }
  assert (Hent : ∀ k e, loaded_entries w !! k = Some e →
            ∃ name, names !! k = Some name
                    ∧ loaded_entries w' !! k = Some (with_ID name e)).
  { intros k e [He Hk]%lookup_take_Some.
    destruct (names !! k) as [name|] eqn:Hnm.
    2:{ apply lookup_ge_None in Hnm. lia. }
    exists name. split; [done|]. unfold loaded_entries. rewrite Hn.
    rewrite lookup_take_lt by done. destruct (Hnew k name Hnm) as [_ ->].
    by rewrite He. }
  assert (Htags : tag <$> loaded_entries w' = tag <$> loaded_entries w).
  { apply list_eq. intros k. rewrite !list_lookup_fmap.
    destruct (loaded_entries w !! k) as [e|] eqn:He.
    - destruct (Hent k e He) as (name & _ & ->). reflexivity.
    - apply lookup_ge_None in He. rewrite loaded_entries_length in He by done.
      rewrite (proj2 (lookup_ge_None _ _)); [done|].
      rewrite loaded_entries_length by done. lia. }
  exists w'. split; [done|]. split; [done|]. intros t.
  split; [by rewrite !FindTextureSlot_tags, Htags|].
  intros slot Hslot Hfound. rewrite FindTextureSlot_scan in Hslot by done.
  rewrite FindTextureID_scan by done.
  destruct (list_find (λ e, tag e = t) (loaded_entries w)) as [[k e]|] eqn:Hfind;
    [|congruence].
  apply list_find_Some in Hfind as (Hk & Ht & Hfirst).
  destruct (Hent k e Hk) as (name & Hnm & Hk').
  assert (Hfind' : list_find (λ e, tag e = t) (loaded_entries w') = Some (k, with_ID name e)).
  { apply list_find_Some. split; [done|]. split; [done|].
    intros j y Hj Hlt Hy.
    assert (is_Some (loaded_entries w !! j)) as [y0 Hy0].
    { apply lookup_lt_is_Some. apply lookup_lt_Some in Hk. lia. }
    destruct (Hent j y0 Hy0) as (nm & _ & Hj'). rewrite Hj in Hj'.
    injection Hj' as ->. by apply (Hfirst j y0). }
  rewrite Hfind'. exists name. split; [|done].
  rewrite Hcalls, drop_app_length. apply list_elem_of_fmap. exists name.
  split; [done|]. by eapply list_elem_of_lookup_2.
Qed.

Lemma DestroyGLTextures_keeps_slots_witness :
  ∃ w', DestroyGLTextures ab_world = Some (tt, w')
        ∧ FindTextureSlot w' "b" = Some 1.
Proof.
  destruct (DestroyGLTextures_keeps_slots ab_world) as (w' & Hrun & _ & Hsame).
  - unfold registry_ok. cbn. lia.
  - exists w'. split; [done|]. destruct (Hsame "b"%string) as [-> _]. reflexivity.
Defined.

(** X10: what a tag resolves to after [LoadSceneTextures], whatever the
    files on disk. Started on an empty 16-entry registry the function
    returns, and afterwards [FindTextureSlot] returns for every tag either
    -1 or a slot below 15; it returns -1 exactly for the tags that none of
    the fifteen registrations paired with a file that loads. *)
Theorem LoadSceneTextures_resolution (w0 : World) :
  m_loadedTextures w0 = 0 →
  length (m_textureIDs w0) = 16%nat →
  ∃ w, LoadSceneTextures w0 = Some (tt, w)
       ∧ ∀ t, ∃ slot,
           FindTextureSlot w t = Some slot
           ∧ -1 ≤ slot < 15
           ∧ (slot = -1 ↔ ¬ ∃ f, (f, t) ∈ scene_textures ∧ loads w0 f = true).
Proof.
  intros H0 H16.
  assert (Hok0 : registry_ok w0) by (unfold registry_ok; lia).
  destruct (register_all_defined scene_textures w0 Hok0) as [[rs w1] Hrun].
  { rewrite H0, H16.
    pose proof (length_filter (λ op, loads w0 op.1 = true) scene_textures) as Hf.
    cbn [length scene_textures] in Hf. lia. }
  destruct (register_all_sound scene_textures w0 w1 rs Hok0 Hrun)
    as (_ & Hok1 & Hrs & Hn & Htags).
  unfold loaded_entries at 2 in Htags. rewrite H0 in Htags.
  change (Z.to_nat 0) with 0%nat in Htags. rewrite take_0 in Htags. cbn [fmap list_fmap app] in Htags.
  destruct (BindGLTextures_run w1 Hok1) as (calls & Hbind).
  exists (with_gl_calls (gl_calls w1 ++ calls) w1).
  rewrite LoadSceneTextures_run, Hrun. split; [done|]. intros t.
  assert (Hsame : FindTextureSlot (with_gl_calls (gl_calls w1 ++ calls) w1) t
                  = FindTextureSlot w1 t).
  { unfold FindTextureSlot. by rewrite FindTextureSlot_loop_ext with (w := w1). }
  rewrite Hsame, FindTextureSlot_tags, Htags by done.
  pose proof (registered_length scene_textures rs) as Hlen.
  cbn [length scene_textures] in Hlen.
  destruct (list_find (λ x, x = t) (registered scene_textures rs)) as [[k x]|] eqn:Hfind.
  - apply list_find_Some in Hfind as (Hk & -> & _).
    pose proof (lookup_lt_Some _ _ _ Hk) as Hlt.
    exists (Z.of_nat k). split; [done|]. split; [lia|]. split; [lia|].
    intros Hnot. exfalso. apply Hnot. apply (registered_elem w0). rewrite <- Hrs.
    by eapply list_elem_of_lookup_2.
  - exists (-1). split; [done|]. split; [lia|]. split; [|done].
    intros _ Hex. apply (registered_elem w0) in Hex. rewrite <- Hrs in Hex.
    apply list_find_None in Hfind. rewrite Forall_forall in Hfind.
    by apply (Hfind t).
Qed.

Lemma LoadSceneTextures_resolution_witness :
  ∃ w, LoadSceneTextures two_textures_world = Some (tt, w)
       ∧ ∃ slot, FindTextureSlot w "floor" = Some slot ∧ -1 ≤ slot < 15.
Proof.
  destruct (LoadSceneTextures_resolution two_textures_world eq_refl eq_refl)
    as (w & Hrun & Hres).
  exists w. split; [exact Hrun|]. destruct (Hres "floor"%string) as (slot & Hs & Hb & _).
  exists slot. split; [exact Hs | exact Hb].
Defined.

(** ** Materials *)

Lemma mtag_matches_decide (m : OBJECT_MATERIAL) (t : string) :
  mtag_matches m t = bool_decide (mtag m = t).
Proof.
  unfold mtag_matches. destruct (String.eqb (mtag m) t) eqn:H.
  - symmetry. apply bool_decide_eq_true_2. by apply String.eqb_eq.
  - symmetry. apply bool_decide_eq_false_2. intros H'%String.eqb_eq. congruence.
Qed.

Lemma FindMaterial_loop_scan (ms : list OBJECT_MATERIAL) (t : string) (fuel : nat) :
  ∀ (material : OBJECT_MATERIAL) (index : Z),
    0 ≤ index →
    (Z.to_nat (Z.of_nat (length ms) - index) ≤ fuel)%nat →
    FindMaterial_loop fuel ms t material index false
    = Some match list_find (λ m, mtag m = t) (drop (Z.to_nat index) ms) with
           | Some (_, e) => (true, copy_attributes e material)
           | None => (false, material)
           end.
Proof.
  induction fuel as [|fuel IH]; intros material index Hi Hfuel.
  - cbn. rewrite (proj2 (Z.ltb_ge _ _)) by lia. cbn.
    rewrite drop_ge by lia. reflexivity.
  - cbn. destruct (index <? Z.of_nat (length ms)) eqn:Hlt; cbn.
    + apply Z.ltb_lt in Hlt.
      destruct (ms !! Z.to_nat index) as [m|] eqn:Hm.
      2:{ apply lookup_ge_None in Hm. lia. }
      cbn. rewrite (drop_S _ _ _ Hm). cbn.
      rewrite mtag_matches_decide. case_bool_decide as Ht.
      * rewrite decide_True by done. cbn.
        destruct fuel; cbn; rewrite andb_false_r; reflexivity.
      * rewrite decide_False by done. rewrite IH by lia.
        replace (Z.to_nat (index + 1)) with (S (Z.to_nat index)) by lia.
        destruct (list_find _ _) as [[k e']|]; reflexivity.
    + apply Z.ltb_ge in Hlt. rewrite drop_ge by lia. reflexivity.
Qed.

Lemma FindMaterial_scan (w : World) (t : string) (material : OBJECT_MATERIAL) :
  FindMaterial w t material
  = Some match m_objectMaterials w with
         | [] => (false, material)
         | _ :: _ =>
             (true, match first_material w t with
                    | Some e => copy_attributes e material
                    | None => material
                    end)
         end.
Proof.
  unfold FindMaterial, first_material.
  destruct (m_objectMaterials w) as [|m ms] eqn:Hms; [reflexivity|].
  change (Z.of_nat (length (m :: ms)) =? 0) with false. cbv iota.
  rewrite FindMaterial_loop_scan by (lia || by rewrite Z.sub_0_r, Nat2Z.id).
  change (Z.to_nat 0) with 0%nat. rewrite drop_0.
  destruct (list_find _ _) as [[k e]|]; reflexivity.
Qed.

(** X11: what [FindMaterial] returns. The result is [false] exactly on an
    empty registry. The out-parameter receives the five attributes of the
    first entry carrying the tag and keeps its own tag; when no entry
    carries the tag it is left as it was passed, also when the result is
    [true]. *)
Theorem FindMaterial_first_match (w : World) (t : string) (material : OBJECT_MATERIAL) :
  ∃ r material',
    FindMaterial w t material = Some (r, material')
    ∧ (r = false ↔ m_objectMaterials w = [])
    ∧ (t ∉ (mtag <$> m_objectMaterials w) → material' = material)
    ∧ ∀ (i : nat) (e : OBJECT_MATERIAL),
        m_objectMaterials w !! i = Some e → mtag e = t →
        (∀ (j : nat) (e' : OBJECT_MATERIAL),
           m_objectMaterials w !! j = Some e' → (j < i)%nat → mtag e' ≠ t) →
        material' = copy_attributes e material
        ∧ mtag material' = mtag material.
Proof.
  rewrite FindMaterial_scan. unfold first_material.
  destruct (m_objectMaterials w) as [|m ms] eqn:Hms.
  - exists false, material. split; [done|]. split; [done|]. split; [done|].
    intros i e Hi. by rewrite lookup_nil in Hi.
  - rewrite <- Hms. eexists true, _. split; [reflexivity|].
    split; [split; [done | by rewrite Hms]|]. split.
    + intros Hnot.
      assert (list_find (λ m0, mtag m0 = t) (m_objectMaterials w) = None) as ->; [|done].
      apply list_find_None, Forall_forall. intros x Hx Ht. apply Hnot.
      apply list_elem_of_fmap. by exists x.
    + intros i e Hi Ht Hfirst.
      assert (list_find (λ m0, mtag m0 = t) (m_objectMaterials w) = Some (i, e)) as ->.
      { apply list_find_Some. split; [done|]. split; [done|].
        intros j y Hj Hlt. by apply (Hfirst j y). }
      done.
Qed.

(** X12: the first registered material wins. Entries appended to the
    registry do not change what [FindMaterial] returns for a tag the
    registry already holds. *)
Theorem FindMaterial_first_registered_wins (w : World) (extra : list OBJECT_MATERIAL)
    (t : string) (material : OBJECT_MATERIAL) :
  t ∈ (mtag <$> m_objectMaterials w) →
  FindMaterial (with_objectMaterials (m_objectMaterials w ++ extra) w) t material
  = FindMaterial w t material.
Proof.
  intros (e & Ht & He)%list_elem_of_fmap. rewrite !FindMaterial_scan.
  unfold first_material. cbn [m_objectMaterials with_objectMaterials].
  destruct (list_find_elem_of (λ m, mtag m = t) (m_objectMaterials w) e He)
    as [[i x] Hfind]; [done|].
  rewrite (list_find_app_l _ _ _ _ _ Hfind), Hfind.
  destruct (m_objectMaterials w) as [|m ms]; [by apply elem_of_nil in He | reflexivity].
Qed.

Lemma FindMaterial_first_registered_wins_witness :
  FindMaterial (with_objectMaterials
                  (two_materials ++ [set_shininess 9 (set_tag "b" default_material)])
                  materials_world) "b" default_material
  = Some (true, set_shininess 2 default_material).
Proof.
  etransitivity.
  - apply (FindMaterial_first_registered_wins materials_world
             [set_shininess 9 (set_tag "b" default_material)] "b" default_material).
    apply list_elem_of_In. cbn. right. by left.
  - reflexivity.
Defined.

Lemma SetShaderMaterial_run (t : string) (w : World) :
  SetShaderMaterial t w
  = match m_objectMaterials w with
    | [] => Some (tt, w)
    | _ :: _ =>
        match m_pShaderManager w with
        | Some sm =>
            Some (tt, with_shader (Some (material_pushes (pushed_material w t) ++ sm)) w)
        | None => None
        end
    end.
Proof.
  unfold SetShaderMaterial. run.
  destruct (m_objectMaterials w) as [|m ms] eqn:Hms; [reflexivity|].
  change (0 <? Z.of_nat (length (m :: ms))) with true. cbv iota. run.
  rewrite FindMaterial_scan, Hms. fold (pushed_material w t).
  generalize (pushed_material w t). intros pm. clear Hms.
  destruct w as [ld dr cs [sm|] n arr ms0]; reflexivity.
Qed.

(** X13: with a sink attached and a registry that is not empty,
    [SetShaderMaterial] pushes five values, "material.ambientColor",
    "material.ambientStrength", "material.diffuseColor",
    "material.specularColor" and "material.shininess" in that order: the
    attributes of the first entry carrying the tag, or five indeterminate
    values when no entry carries it. Nothing else changes. *)
Theorem SetShaderMaterial_pushes (t : string) (w : World) (sm : ShaderManager) :
  m_objectMaterials w ≠ [] →
  m_pShaderManager w = Some sm →
  SetShaderMaterial t w
  = Some (tt, with_shader (Some (material_pushes (pushed_material w t) ++ sm)) w)
  ∧ (t ∉ (mtag <$> m_objectMaterials w) →
     material_pushes (pushed_material w t)
     = [ ("material.shininess", UFloat None); ("material.specularColor", UVec3 None);
         ("material.diffuseColor", UVec3 None); ("material.ambientStrength", UFloat None);
         ("material.ambientColor", UVec3 None) ]%string)
  ∧ ∀ (i : nat) (e : OBJECT_MATERIAL),
      m_objectMaterials w !! i = Some e → mtag e = t →
      (∀ (j : nat) (e' : OBJECT_MATERIAL),
         m_objectMaterials w !! j = Some e' → (j < i)%nat → mtag e' ≠ t) →
      material_pushes (pushed_material w t) = material_pushes e.
Proof.
  intros Hne Hp. rewrite SetShaderMaterial_run, Hp.
  split; [by destruct (m_objectMaterials w)|]. unfold pushed_material, first_material.
  split.
  - intros Hnot.
    assert (list_find (λ m0, mtag m0 = t) (m_objectMaterials w) = None) as ->; [|done].
    apply list_find_None, Forall_forall. intros x Hx Ht. apply Hnot.
    apply list_elem_of_fmap. by exists x.
  - intros i e Hi Ht Hfirst.
    assert (list_find (λ m0, mtag m0 = t) (m_objectMaterials w) = Some (i, e)) as ->.
    { apply list_find_Some. split; [done|]. split; [done|].
      intros j y Hj Hlt. by apply (Hfirst j y). }
    reflexivity.
Qed.

Lemma SetShaderMaterial_pushes_witness :
  ∃ w', SetShaderMaterial "a" materials_world = Some (tt, w')
        ∧ uniform_of w' "material.shininess" = Some (UFloat (Some 1%R)).
Proof.
  eexists. split.
  - apply (proj1 (SetShaderMaterial_pushes "a" materials_world []
                    ltac:(discriminate) eq_refl)).
  - reflexivity.
Defined.

(** X14: two functions lack the null test the other uniform helpers have.
    With a null [m_pShaderManager], [SetupSceneLights] calls through the
    null pointer in its first statement, and so does [SetShaderMaterial]
    for every tag, registered or not, unless the material registry is
    empty, in which case it returns without doing anything. *)
Theorem unguarded_calls_on_null_sink (w : World) (t : string) :
  m_pShaderManager w = None →
  SetupSceneLights w = None
  ∧ SetShaderMaterial t w = if decide (m_objectMaterials w = []) then Some (tt, w) else None.
Proof.
  intros Hp. split.
  - unfold SetupSceneLights. rewrite bind_run. unfold setBoolValue, push. by rewrite Hp.
  - rewrite SetShaderMaterial_run, Hp. by destruct (m_objectMaterials w).
Qed.

Lemma unguarded_calls_on_null_sink_witness :
  SetupSceneLights sinkless_materials_world = None
  ∧ SetShaderMaterial "nowhere" sinkless_materials_world = None.
Proof.
  apply (unguarded_calls_on_null_sink sinkless_materials_world "nowhere" eq_refl).
Defined.

Lemma DefineObjectMaterials_run (w : World) :
  DefineObjectMaterials w
  = Some (tt, with_objectMaterials (m_objectMaterials w ++ scene_materials) w).
Proof.
  unfold DefineObjectMaterials, push_back. run.
  destruct w as [ld dr cs sm n arr ms]. cbn. rewrite <- !app_assoc. reflexivity.
Qed.

(** X15: the unassigned shininess reaches the shader. On a manager with a
    sink whose registry holds neither tag, [DefineObjectMaterials] followed
    by [SetShaderMaterial] for "ceramic" leaves "material.shininess" at an
    indeterminate value, while the same for "glass" leaves it at 85. *)
Theorem ceramic_shininess_is_pushed_unassigned (w : World) (sm : ShaderManager) :
  m_pShaderManager w = Some sm →
  ("ceramic" : string) ∉ (mtag <$> m_objectMaterials w) →
  ("glass" : string) ∉ (mtag <$> m_objectMaterials w) →
  (∃ w', (DefineObjectMaterials;; SetShaderMaterial "ceramic") w = Some (tt, w')
         ∧ uniform_of w' "material.shininess" = Some (UFloat None)
         ∧ uniform_of w' "material.ambientStrength" = Some (UFloat (Some 0.25%R)))
  ∧ (∃ w', (DefineObjectMaterials;; SetShaderMaterial "glass") w = Some (tt, w')
           ∧ uniform_of w' "material.shininess" = Some (UFloat (Some 85.0%R))).
Proof.
  intros Hp Hc Hg.
  assert (Hfind : ∀ t : string, t ∉ (mtag <$> m_objectMaterials w) →
            first_material (with_objectMaterials (m_objectMaterials w ++ scene_materials) w) t
            = snd <$> list_find (λ m, mtag m = t) scene_materials).
  { intros t Hnot. unfold first_material. cbn [m_objectMaterials with_objectMaterials].
    rewrite list_find_app_r.
    - by destruct (list_find _ scene_materials) as [[k e]|].
    - apply list_find_None, Forall_forall. intros x Hx Ht. apply Hnot.
      apply list_elem_of_fmap. by exists x. }
  assert (Hrun : ∀ t : string,
            (DefineObjectMaterials;; SetShaderMaterial t) w
            = Some (tt, with_shader
                          (Some (material_pushes
                                   (pushed_material
                                      (with_objectMaterials
                                         (m_objectMaterials w ++ scene_materials) w) t)
                                 ++ sm))
                          (with_objectMaterials (m_objectMaterials w ++ scene_materials) w))).
  { intros t. rewrite bind_run, DefineObjectMaterials_run, SetShaderMaterial_run.
    cbn [m_objectMaterials with_objectMaterials m_pShaderManager]. rewrite Hp.
    destruct (m_objectMaterials w ++ scene_materials) eqn:Happ; [|reflexivity].
    by apply app_eq_nil in Happ as [_ ?]. }
  assert (Hceramic : list_find (λ m, mtag m = "ceramic"%string) scene_materials
                     = Some (3%nat, nth 3 scene_materials default_material))
    by reflexivity.
  assert (Hglass : list_find (λ m, mtag m = "glass"%string) scene_materials
                   = Some (2%nat, nth 2 scene_materials default_material))
    by reflexivity.
  split.
  - eexists. split; [apply Hrun|]. unfold pushed_material.
    rewrite (Hfind _ Hc), Hceramic.
    unfold uniform_of, material_pushes. cbn [with_shader m_pShaderManager mbind option_bind app].
    rewrite !uniforms_push. split.
    + by rewrite lookup_insert_eq.
    + rewrite !lookup_insert_ne by done. by rewrite lookup_insert_eq.
  - eexists. split; [apply Hrun|]. unfold pushed_material.
    rewrite (Hfind _ Hg), Hglass.
    unfold uniform_of, material_pushes. cbn [with_shader m_pShaderManager mbind option_bind app].
    rewrite !uniforms_push. by rewrite lookup_insert_eq.
Qed.

Lemma ceramic_shininess_is_pushed_unassigned_witness :
  ∃ w', (DefineObjectMaterials;; SetShaderMaterial "ceramic") scene_world = Some (tt, w')
        ∧ uniform_of w' "material.shininess" = Some (UFloat None)
        ∧ uniform_of w' "material.ambientStrength" = Some (UFloat (Some 0.25%R)).
Proof.
  apply (proj1 (ceramic_shininess_is_pushed_unassigned scene_world [] eq_refl
                  ltac:(apply not_in_tags; reflexivity)
                  ltac:(apply not_in_tags; reflexivity))).
Defined.

(** X16: defining the materials a second time changes no lookup. The second
    call appends seven more entries, and afterwards [FindMaterial] returns
    for every tag and out-parameter what it returned after the first
    call. *)
Theorem DefineObjectMaterials_twice_same_lookups (w : World) (t : string)
    (material : OBJECT_MATERIAL) :
  ∃ w1 w2,
    DefineObjectMaterials w = Some (tt, w1)
    ∧ DefineObjectMaterials w1 = Some (tt, w2)
    ∧ length (m_objectMaterials w2) = (length (m_objectMaterials w) + 14)%nat
    ∧ FindMaterial w2 t material = FindMaterial w1 t material.
Proof.
  eexists _, _. rewrite !DefineObjectMaterials_run.
  split; [reflexivity|]. split; [reflexivity|].
  cbn [m_objectMaterials with_objectMaterials]. split.
  { rewrite !length_app. cbn. lia. }
  rewrite !FindMaterial_scan. unfold first_material.
  cbn [m_objectMaterials with_objectMaterials].
  set (ms1 := m_objectMaterials w ++ scene_materials).
  assert (Hsame : list_find (λ m, mtag m = t) (ms1 ++ scene_materials)
                  = list_find (λ m, mtag m = t) ms1).
  { destruct (list_find (λ m, mtag m = t) ms1) as [[k e]|] eqn:Hfind.
    - by apply list_find_app_l.
    - apply list_find_app_None. split; [done|].
      by apply list_find_app_None in Hfind as [_ ?]. }
  rewrite Hsame.
  assert (Hne : ms1 ≠ []) by (unfold ms1; intros [_ [=]]%app_eq_nil).
  destruct ms1 as [|m1 ms1']; [done|]. reflexivity.
Qed.

(** ** Uniform helpers and the model matrix *)

Lemma with_shader_twice (p q : option ShaderManager) (w : World) :
  with_shader q (with_shader p w) = with_shader q w.
Proof. reflexivity. Qed.

Lemma shade_pushes (c : shading_call) (w : World) (sm : ShaderManager) :
  m_pShaderManager w = Some sm → registry_ok w →
  ∃ (name : string) (v : uniform) (flag : Z),
    name ≠ "model"%string ∧ name ≠ "UVscale"%string
    ∧ shade c w = Some (tt, with_shader
                              (Some ((name, v) :: ("bUseTexture"%string, UInt flag) :: sm)) w).
Proof.
  intros Hp Hok. destruct c as [r g b a|t]; cbn [shade].
  - rewrite SetShaderColor_run, Hp.
    exists "objectColor"%string, (UVec4 (glm.mkVec4 r g b a)), 0. by repeat split.
  - rewrite SetShaderTexture_run, Hp, FindTextureSlot_scan by done.
    eexists "objectTexture"%string, _, 1. by repeat split.
Qed.

Lemma shade_independent_of_sink (c : shading_call) (w : World) (sm sm0 sm1 : ShaderManager)
    (pushes : list (string * uniform)) :
  m_pShaderManager w = Some sm →
  shade c w = Some (tt, with_shader (Some (pushes ++ sm)) w) →
  shade c (with_shader (Some sm1) w)
  = Some (tt, with_shader (Some (pushes ++ sm1)) w).
Proof.
  intros Hp. destruct c as [r g b a|t]; cbn [shade].
  - rewrite !SetShaderColor_run, Hp. cbn [m_pShaderManager with_shader].
    intros [= Heq]. rewrite with_shader_twice.
    apply (app_inv_tail sm [_; _] pushes) in Heq. by subst pushes.
  - rewrite !SetShaderTexture_run, Hp, FindTextureSlot_with_shader.
    cbn [m_pShaderManager with_shader].
    destruct (FindTextureSlot w t) as [slot|]; [|discriminate].
    intros [= Heq]. rewrite with_shader_twice.
    apply (app_inv_tail sm [_; _] pushes) in Heq. by subst pushes.
Qed.

(** X17: the transform, the shading mode and the UV scale are independent
    pieces of uniform state. With a sink attached and the registry within
    its array, [SetTransformations] followed by a colour or texture call
    leaves the same value under every uniform name as the two calls in the
    opposite order, and so does [SetTextureUVScale] with either of them. *)
Theorem uniform_helpers_commute (w : World) (sm : ShaderManager) (c : shading_call)
    (s : glm.vec3) (rx ry rz : float) (p : glm.vec3) (u v : float) :
  m_pShaderManager w = Some sm →
  registry_ok w →
  (∃ w1 w2,
     (SetTransformations s rx ry rz p;; shade c) w = Some (tt, w1)
     ∧ (shade c;; SetTransformations s rx ry rz p) w = Some (tt, w2)
     ∧ uniform_state w1 = uniform_state w2)
  ∧ (∃ w1 w2,
       (SetTextureUVScale u v;; shade c) w = Some (tt, w1)
       ∧ (shade c;; SetTextureUVScale u v) w = Some (tt, w2)
       ∧ uniform_state w1 = uniform_state w2)
  ∧ (∃ w1 w2,
       (SetTransformations s rx ry rz p;; SetTextureUVScale u v) w = Some (tt, w1)
       ∧ (SetTextureUVScale u v;; SetTransformations s rx ry rz p) w = Some (tt, w2)
       ∧ uniform_state w1 = uniform_state w2).
Proof.
  intros Hp Hok.
  destruct (shade_pushes c w sm Hp Hok) as (name & val & flag & Hn1 & Hn2 & Hshade).
  split; [|split].
  - eexists _, _. rewrite !bind_run, SetTransformations_run, Hp, Hshade.
    rewrite (shade_independent_of_sink c w sm sm _ [_; _] Hp Hshade).
    rewrite SetTransformations_run. cbn [m_pShaderManager with_shader].
    split; [reflexivity|]. split; [reflexivity|].
    unfold uniform_state. cbn [m_pShaderManager with_shader fmap option_fmap option_map app].
    f_equal. rewrite !uniforms_push.
    rewrite (insert_insert_ne _ g_ModelName name) by done.
    by rewrite (insert_insert_ne _ g_ModelName "bUseTexture"%string) by done.
  - eexists _, _. rewrite !bind_run, SetTextureUVScale_run, Hp, Hshade.
    rewrite (shade_independent_of_sink c w sm sm _ [_; _] Hp Hshade).
    rewrite SetTextureUVScale_run. cbn [m_pShaderManager with_shader].
    split; [reflexivity|]. split; [reflexivity|].
    unfold uniform_state. cbn [m_pShaderManager with_shader fmap option_fmap option_map app].
    f_equal. rewrite !uniforms_push.
    rewrite (insert_insert_ne _ "UVscale"%string name) by done.
    by rewrite (insert_insert_ne _ "UVscale"%string "bUseTexture"%string) by done.
  - eexists _, _. rewrite !bind_run, SetTransformations_run, SetTextureUVScale_run, Hp.
    rewrite SetTransformations_run, SetTextureUVScale_run.
    cbn [m_pShaderManager with_shader].
    split; [reflexivity|]. split; [reflexivity|].
    unfold uniform_state. cbn [m_pShaderManager with_shader fmap option_fmap option_map].
    f_equal. rewrite !uniforms_push. by rewrite insert_insert_ne.
Qed.

Lemma uniform_helpers_commute_witness :
  ∃ w1 w2,
    (SetTransformations (glm.mkVec3 2 1 1) 0 0 90 (glm.mkVec3 1 0 0);;
     shade (TextureCall "floor")) scene_world = Some (tt, w1)
    ∧ (shade (TextureCall "floor");;
       SetTransformations (glm.mkVec3 2 1 1) 0 0 90 (glm.mkVec3 1 0 0)) scene_world
      = Some (tt, w2)
    ∧ uniform_state w1 = uniform_state w2.
Proof.
  apply (proj1 (uniform_helpers_commute scene_world [] (TextureCall "floor")
                  (glm.mkVec3 2 1 1) 0 0 90 (glm.mkVec3 1 0 0) 1 1 eq_refl
                  ltac:(unfold registry_ok; cbn; lia))).
Defined.

Section affine.
Local Open Scope R_scope.
Import glm.

Ltac dir_unfold :=
  cbv [mulv mul vadd vscale point direction scale translate identity
       scale_point translate_point rotate_x_point rotate_y_point rotate_z_point
       col0 col1 col2 col3 x4 y4 z4 w4 x3 y3 z3].

Lemma scale_direction (s d : vec3) :
  mulv (scale s) (direction d) = direction (scale_point s d).
Proof. destruct s, d. dir_unfold. f_equal; ring. Qed.

Lemma translate_direction (t d : vec3) :
  mulv (translate t) (direction d) = direction d.
Proof. destruct t, d. dir_unfold. f_equal; ring. Qed.

Lemma rotate_x_direction (a : float) (d : vec3) :
  mulv (rotate a (mkVec3 1 0 0)) (direction d) = direction (rotate_x_point a d).
Proof.
  unfold rotate. rewrite normalize_unit by (cbv [dot x3 y3 z3]; ring).
  destruct d. dir_unfold. f_equal; ring.
Qed.

Lemma rotate_y_direction (a : float) (d : vec3) :
  mulv (rotate a (mkVec3 0 1 0)) (direction d) = direction (rotate_y_point a d).
Proof.
  unfold rotate. rewrite normalize_unit by (cbv [dot x3 y3 z3]; ring).
  destruct d. dir_unfold. f_equal; ring.
Qed.

Lemma rotate_z_direction (a : float) (d : vec3) :
  mulv (rotate a (mkVec3 0 0 1)) (direction d) = direction (rotate_z_point a d).
Proof.
  unfold rotate. rewrite normalize_unit by (cbv [dot x3 y3 z3]; ring).
  destruct d. dir_unfold. f_equal; ring.
Qed.

(** X18: the matrix left under "model" is affine and its translation part
    is [positionXYZ]. With a sink attached, the matrix [SetTransformations]
    pushes sends the origin to [positionXYZ] whatever the scale and the
    angles, and sends a direction (fourth coordinate 0) to the direction
    obtained by scaling and rotating it, the translation having no effect on
    it. *)
Theorem model_matrix_is_affine (s : vec3) (rx ry rz : float) (t : vec3)
    (w : World) (sm : ShaderManager) :
  m_pShaderManager w = Some sm →
  ∃ (w' : World) (m : mat4),
    SetTransformations s rx ry rz t w = Some (tt, w')
    ∧ uniform_of w' "model" = Some (UMat4 m)
    ∧ mulv m (point (mkVec3 0 0 0)) = point t
    ∧ ∀ d : vec3,
        mulv m (direction d)
        = direction (rotate_x_point (radians rx)
                       (rotate_y_point (radians ry)
                          (rotate_z_point (radians rz) (scale_point s d)))).
Proof.
  intros Hp. eexists _, (model_matrix s rx ry rz t).
  rewrite SetTransformations_run, Hp. split; [reflexivity|]. split.
  { unfold uniform_of. cbn [with_shader m_pShaderManager mbind option_bind].
    rewrite uniforms_push. by rewrite lookup_insert_eq. }
  unfold model_matrix. split.
  - rewrite !mulv_mul.
    rewrite scale_point_apply, rotate_z_point_apply, rotate_y_point_apply,
      rotate_x_point_apply, translate_point_apply.
    destruct t. dir_unfold. f_equal; ring.
  - intros d. rewrite !mulv_mul.
    by rewrite scale_direction, rotate_z_direction, rotate_y_direction,
      rotate_x_direction, translate_direction.
Qed.

Lemma model_matrix_is_affine_witness :
  ∃ (w' : World) (m : mat4),
    SetTransformations (mkVec3 2 3 4) 10 20 30 (mkVec3 1 5 7) scene_world = Some (tt, w')
    ∧ uniform_of w' "model" = Some (UMat4 m)
    ∧ mulv m (point (mkVec3 0 0 0)) = point (mkVec3 1 5 7).
Proof.
  destruct (model_matrix_is_affine (mkVec3 2 3 4) 10 20 30 (mkVec3 1 5 7) scene_world []
              eq_refl) as (w' & m & Hrun & Hu & Ho & _).
  by exists w', m.
Defined.

End affine.

Lemma push_run (name : string) (v : uniform) (w : World) (sm : ShaderManager) :
  m_pShaderManager w = Some sm →
  push name v w = Some (tt, with_shader (Some ((name, v) :: sm)) w).
Proof. intros Hp. unfold push. by rewrite Hp. Qed.

(** X19: [SetupSceneLights] with a sink attached pushes thirteen values,
    leaves "bUseLighting" set to true, and leaves every uniform it does not
    name - the model matrix, the colour, the texture slot and flag, the UV
    scale, the material - as it was. *)
Theorem SetupSceneLights_frame (w : World) (sm : ShaderManager) :
  m_pShaderManager w = Some sm →
  ∃ sm', SetupSceneLights w = Some (tt, with_shader (Some sm') w)
         ∧ length sm' = (length sm + 13)%nat
         ∧ uniforms sm' !! "bUseLighting"%string = Some (UBool true)
         ∧ ∀ name : string,
             name ∉ light_uniform_names →
             uniforms sm' !! name = uniforms sm !! name.
Proof.
  intros Hp. unfold SetupSceneLights, setBoolValue, setVec3Value3, setVec3Value,
    setFloatValue.
  repeat (rewrite bind_run; erewrite push_run by (cbn; reflexivity || exact Hp);
          rewrite ?with_shader_twice).
  erewrite push_run by (cbn; reflexivity). rewrite with_shader_twice.
  eexists. split; [reflexivity|]. split; [cbn; lia|].
  rewrite !uniforms_push. split.
  - rewrite !lookup_insert_ne by done. by rewrite lookup_insert_eq.
  - intros name Hnot.
    assert (Hne : ∀ n : string, In n light_uniform_names → n ≠ name).
    { intros n Hin ->. by apply Hnot, list_elem_of_In. }
    rewrite !lookup_insert_ne by (apply Hne; cbn; tauto). reflexivity.
Qed.

Lemma SetupSceneLights_frame_witness :
  ∃ sm', SetupSceneLights miss_world = Some (tt, with_shader (Some sm') miss_world)
         ∧ uniforms sm' !! "bUseLighting"%string = Some (UBool true)
         ∧ uniforms sm' !! "bUseTexture"%string = Some (UInt 0).
Proof.
  destruct (SetupSceneLights_frame miss_world [("bUseTexture"%string, UInt 0)] eq_refl)
    as (sm' & Hrun & _ & Hl & Hframe).
  exists sm'. split; [exact Hrun|]. split; [exact Hl|].
  rewrite Hframe; [reflexivity|]. apply not_in_tags. reflexivity.
Defined.

(** ** Scene preparation *)

Lemma LoadSceneTextures_fresh (w0 : World) :
  m_loadedTextures w0 = 0 →
  length (m_textureIDs w0) = 16%nat →
  ∃ w1, LoadSceneTextures w0 = Some (tt, w1)
        ∧ same_surroundings w0 w1 ∧ registry_ok w1 ∧ m_loadedTextures w1 ≤ 15.
Proof.
  intros H0 H16.
  assert (Hok0 : registry_ok w0) by (unfold registry_ok; lia).
  destruct (register_all_defined scene_textures w0 Hok0) as [[rs w1] Hrun].
  { rewrite H0, H16.
    pose proof (length_filter (λ op, loads w0 op.1 = true) scene_textures) as Hf.
    cbn [length scene_textures] in Hf. lia. }
  destruct (register_all_sound scene_textures w0 w1 rs Hok0 Hrun)
    as (Hsame & Hok1 & _ & Hn & _).
  pose proof (registered_length scene_textures rs) as Hlen.
  cbn [length scene_textures] in Hlen.
  destruct (BindGLTextures_run w1 Hok1) as (calls & Hbind).
  exists (with_gl_calls (gl_calls w1 ++ calls) w1).
  rewrite LoadSceneTextures_run, Hrun. split; [done|].
  split; [by destruct w1|]. split; [by destruct w1|].
  change (m_loadedTextures w1 ≤ 15). lia.
Qed.

(** X20: [PrepareScene] on a fresh manager. Started on an empty 16-entry
    texture registry it is undefined when [m_pShaderManager] is null, the
    lights being set without a null test. With a sink attached it returns
    with at most 15 textures loaded, the seven scene materials appended,
    "bUseLighting" set to true and the six meshes loaded in the order plane,
    torus, sphere, cylinder, box, tapered cylinder. *)
Theorem PrepareScene_on_fresh_manager (s : Scene) :
  m_loadedTextures (world s) = 0 →
  length (m_textureIDs (world s)) = 16%nat →
  match m_pShaderManager (world s) with
  | None => PrepareScene s = None
  | Some _ =>
      ∃ s', PrepareScene s = Some s'
            ∧ registry_ok (world s')
            ∧ m_loadedTextures (world s') ≤ 15
            ∧ m_objectMaterials (world s')
              = m_objectMaterials (world s) ++ scene_materials
            ∧ uniform_of (world s') "bUseLighting" = Some (UBool true)
            ∧ mesh_loads s'
              = mesh_loads s ++ [ LoadPlaneMesh; LoadTorusMesh; LoadSphereMesh;
                                  LoadCylinderMesh; LoadBoxMesh; LoadTaperedCylinderMesh ]
  end.
Proof.
  intros H0 H16.
  destruct (LoadSceneTextures_fresh (world s) H0 H16)
    as (w1 & Hload & (_ & _ & Hp1 & Hms1 & _) & Hok1 & Hn1).
  unfold PrepareScene. rewrite bind_run, Hload. cbv beta iota.
  rewrite bind_run, DefineObjectMaterials_run. cbv beta iota.
  set (w2 := with_objectMaterials (m_objectMaterials w1 ++ scene_materials) w1).
  assert (Hp2 : m_pShaderManager w2 = m_pShaderManager (world s)) by done.
  destruct (m_pShaderManager (world s)) as [sm|] eqn:Hp.
  - unfold SetupSceneLights, setBoolValue, setVec3Value3, setVec3Value, setFloatValue.
    repeat (rewrite bind_run; erewrite push_run by (cbn; reflexivity || exact Hp2);
            rewrite ?with_shader_twice).
    erewrite push_run by (cbn; reflexivity). rewrite with_shader_twice.
    eexists. split; [reflexivity|]. cbn [world mesh_loads].
    split; [by destruct w1|]. split; [by destruct w1|].
    split; [cbn; by rewrite Hms1|]. split; [|done].
    unfold uniform_of. cbn [with_shader m_pShaderManager mbind option_bind].
    rewrite !uniforms_push. rewrite !lookup_insert_ne by done.
    by rewrite lookup_insert_eq.
  - unfold SetupSceneLights. rewrite bind_run. unfold setBoolValue, push.
    by rewrite Hp2.
Qed.

Lemma PrepareScene_on_fresh_manager_witness :
  ∃ s', PrepareScene (mkScene scene_world []) = Some s'
        ∧ m_loadedTextures (world s') ≤ 15
        ∧ uniform_of (world s') "bUseLighting" = Some (UBool true)
        ∧ mesh_loads s'
          = [ LoadPlaneMesh; LoadTorusMesh; LoadSphereMesh;
              LoadCylinderMesh; LoadBoxMesh; LoadTaperedCylinderMesh ].
Proof.
  destruct (PrepareScene_on_fresh_manager (mkScene scene_world []) eq_refl eq_refl)
    as (s' & Hrun & _ & Hn & _ & Hl & Hm).
  exists s'. split; [exact Hrun|]. split; [exact Hn|]. split; [exact Hl | exact Hm].
Defined.
